(** * PyPIM client: wire validation, instance lifecycle, channel selection

    A shallow embedding of [ansys.platform.instancemanagement]
    ([service.py], [definition.py], [instance.py]) together with the
    properties stated about it.

    Conventions of the embedding:
    - a Python [str] is the [string] of the bytes of its UTF-8 encoding:
      two strs are equal, one starts with the other, or one is cut at an
      ASCII separator, exactly as their encodings are; where the code
      looks at characters ([str.isdecimal], [int]) the bytes are decoded
      into code points;
    - what the code takes from the interpreter it runs on is an
      [Interpreter]: the decimal digits of its Unicode database and its
      limit on the digits of an integer string;
    - a Python [dict] and a protobuf map field are a [gmap]: equality of
      two dicts does not depend on insertion order;
    - a protobuf repeated field is the [list] of its values; a
      [Sequence] held by an object is a [Sequence]: its values and
      whether it is a list, a tuple or a protobuf container;
    - a raised exception is the [Raise] case of [result]; a method that
      talks to the server threads its receiver and the calls issued so
      far through the monad [M]. *)

From Stdlib Require Import ZArith Ascii String List Permutation PrimFloat.
From stdpp Require Import gmap strings list fin_maps.

Open Scope string_scope.

(** ** Exceptions and results *)

(** Status carried by a [grpc.RpcError]. *)
Record RpcStatus := { status_code : N; status_details : string }.

Inductive Exception :=
| ValueError (msg : string)
| AttributeError (msg : string)
| IndexError (msg : string)
| RpcError (status : RpcStatus)
| ConfigurationError (msg : string).

Inductive result (A : Type) :=
| Ok (a : A)
| Raise (e : Exception).
Arguments Ok {A} a.
Arguments Raise {A} e.

(** An object handed to a method of class [C]: an instance of [C], or an
    instance of some other class. *)
Inductive object (C : Type) :=
| instance_of (c : C)
| foreign (class_name : string).
Arguments instance_of {C} c.
Arguments foreign {C} class_name.

(** What a rich comparison method returns. *)
Inductive comparison_result :=
| Bool (b : bool)
| NotImplemented.

(** A [Sequence] of strs held by an object: a list, a tuple, or the
    container of a protobuf repeated field, and its values. *)
Inductive sequence_type := list_type | tuple_type | repeated_type.

Record Sequence := {
  sequence_type_of : sequence_type;
  items :> list string }.

Definition repeated (values : list string) : Sequence :=
  {| sequence_type_of := repeated_type; items := values |}.

(** Whether sequences of two types compare by their values: a tuple only
    with a tuple; a list and a protobuf container with one another. *)
Definition comparable (a b : sequence_type) : bool :=
  match a, b with
  | tuple_type, tuple_type => true
  | tuple_type, _ | _, tuple_type => false
  | _, _ => true
  end.

(** [a == b] for two such sequences. *)
Definition sequence_eq (a b : Sequence) : bool :=
  comparable (sequence_type_of a) (sequence_type_of b)
  && bool_decide (items a = items b).

(** [a == b] for two dicts whose values compare with [value_eq]: the same
    number of entries, and every key of [a] is a key of [b] with an equal
    value. *)
Definition dict_eq {V} (value_eq : V -> V -> bool) (a b : gmap string V) : bool :=
  bool_decide (size a = size b)
  && forallb (fun kv => match b !! kv.1 with
                        | Some w => value_eq kv.2 w
                        | None => false
                        end) (map_to_list a).

(** ** The interpreter *)

(** A decimal digit. *)
Inductive digit := D0 | D1 | D2 | D3 | D4 | D5 | D6 | D7 | D8 | D9.

Definition digit_value (d : digit) : Z :=
  match d with
  | D0 => 0 | D1 => 1 | D2 => 2 | D3 => 3 | D4 => 4
  | D5 => 5 | D6 => 6 | D7 => 7 | D8 => 8 | D9 => 9
  end%Z.

(** What the code takes from the interpreter it runs on.
    [unicode_decimal] is [unicodedata.decimal] outside ASCII: the digit
    that a character of category Nd stands for, by code point.
    [int_max_str_digits] is [sys.get_int_max_str_digits()], the greatest
    number of digits [int] converts: 0 when there is no limit (also on
    an interpreter that knows none), 4300 unless it is configured, and
    never between 1 and 639. [int_limit_message] is the message of the
    [ValueError] that [int] raises for a string of so many digits. *)
Record Interpreter := {
  unicode_decimal : N -> option digit;
  int_max_str_digits : N;
  int_limit_message : nat -> string;
  int_max_str_digits_ok :
    int_max_str_digits = 0%N \/ (640 <= int_max_str_digits)%N }.

(** ** The string methods the code calls *)

Module Str.

(** [bool(s)] for a [str]: the empty string is the only falsy one. *)
Definition truthy (s : string) : bool :=
  match s with EmptyString => false | String _ _ => true end.

(** [s.startswith(p)] *)
Fixpoint startswith (s p : string) {struct p} : bool :=
  match p with
  | EmptyString => true
  | String b p' =>
      match s with
      | EmptyString => false
      | String a s' => Ascii.eqb a b && startswith s' p'
      end
  end.

(** First segment and remaining segments of [s] cut at every [sep]. *)
Fixpoint split_segments (sep : ascii) (s : string) : string * list string :=
  match s with
  | EmptyString => (EmptyString, [])
  | String c r =>
      let (seg, segs) := split_segments sep r in
      if Ascii.eqb c sep then (EmptyString, seg :: segs)
      else (String c seg, segs)
  end.

(** [s.split(sep)] for a separator of one character. *)
Definition split (sep : ascii) (s : string) : list string :=
  let (seg, segs) := split_segments sep s in seg :: segs.

(** A continuation byte of a UTF-8 sequence, and the six bits it holds. *)
Definition continuation (b : ascii) : option N :=
  let n := N_of_ascii b in
  if (128 <=? n)%N && (n <? 192)%N then Some (n - 128)%N else None.

(** A code point decoded from a sequence of [size] bytes, when no shorter
    sequence encodes it and it is no more than U+10FFFF. *)
Definition decoded (size : nat) (c : N) : option N :=
  match size with
  | 2 => if (128 <=? c)%N then Some c else None
  | 3 => if (2048 <=? c)%N then Some c else None
  | 4 => if (65536 <=? c)%N && (c <=? 1114111)%N then Some c else None
  | _ => None
  end.

(** The characters of a str: the code points its bytes encode, [None]
    for bytes that encode no str. *)
Fixpoint code_points (s : string) : option (list N) :=
  match s with
  | EmptyString => Some []
  | String b0 r0 =>
      let n0 := N_of_ascii b0 in
      if (n0 <? 128)%N then cons n0 <$> code_points r0
      else if (n0 <? 192)%N then None
      else if (n0 <? 224)%N then
        match r0 with
        | String b1 r1 =>
            c1 ← continuation b1;
            c ← decoded 2 ((n0 - 192) * 64 + c1)%N;
            cons c <$> code_points r1
        | EmptyString => None
        end
      else if (n0 <? 240)%N then
        match r0 with
        | String b1 (String b2 r2) =>
            c1 ← continuation b1;
            c2 ← continuation b2;
            c ← decoded 3 (((n0 - 224) * 64 + c1) * 64 + c2)%N;
            cons c <$> code_points r2
        | _ => None
        end
      else if (n0 <? 248)%N then
        match r0 with
        | String b1 (String b2 (String b3 r3)) =>
            c1 ← continuation b1;
            c2 ← continuation b2;
            c3 ← continuation b3;
            c ← decoded 4 ((((n0 - 240) * 64 + c1) * 64 + c2) * 64 + c3)%N;
            cons c <$> code_points r3
        | _ => None
        end
      else None
  end.

(** The digit a decimal character stands for, [None] for any other
    character: ['0'] .. ['9'] in ASCII, the interpreter's Unicode
    database for the rest. *)
Definition decimal_value (interpreter : Interpreter) (c : N) : option Z :=
  if (c <? 128)%N then
    if (48 <=? c)%N && (c <=? 57)%N then Some (Z.of_N c - 48)%Z else None
  else digit_value <$> unicode_decimal interpreter c.

(** The digits the characters of a str stand for, when all of them are
    decimal characters. *)
Definition decimal_values (interpreter : Interpreter) (s : string)
    : option (list Z) :=
  cs ← code_points s; mapM (decimal_value interpreter) cs.

(** [s.isdecimal()]: at least one character, and all of them decimal. *)
Definition isdecimal (interpreter : Interpreter) (s : string) : bool :=
  match decimal_values interpreter s with
  | Some (_ :: _) => true
  | _ => false
  end.

(** The number a sequence of digits writes in base ten. *)
Definition base_ten (ds : list Z) : Z :=
  fold_left (fun acc d => 10 * acc + d)%Z ds 0%Z.

(** Whether the interpreter converts an integer string of [n] digits:
    it does when it has no limit or [n] is within its limit. *)
Definition within_limit (interpreter : Interpreter) (n : nat) : bool :=
  (int_max_str_digits interpreter =? 0)%N
  || (N.of_nat n <=? int_max_str_digits interpreter)%N.

(** What [int] raises on a string with more digits than the interpreter
    converts. *)
Definition int_limit_error (interpreter : Interpreter) (digits : nat)
    : Exception :=
  ValueError (int_limit_message interpreter digits).

(** [int(s)] on the strings the code passes to it, the decimal ones (the
    call sits behind [isdecimal]): their value, or the [ValueError] of a
    string with more digits than the interpreter converts. [None] stands
    for every other argument, which the code never passes. *)
Definition int (interpreter : Interpreter) (s : string) : option (result Z) :=
  match decimal_values interpreter s with
  | Some (d :: ds) =>
      Some (if within_limit interpreter (length (d :: ds))
            then Ok (base_ten (d :: ds))
            else Raise (int_limit_error interpreter (length (d :: ds))))
  | _ => None
  end.

End Str.

(** ** The wire messages (product_instance_manager_pb2)

    Shapes as the code reads and writes them: a Service message
    {uri, headers}, a Definition message {name, product_name,
    product_version, available_service_names[]}, an Instance message
    {name, definition_name, ready, status_message, services}, and the two
    request messages. A field that is not set holds its protobuf
    default: the empty string, [false], the empty map, the empty list. *)

Module ServiceV1.
Record t := { uri : string; headers : gmap string string }.
End ServiceV1.

Module DefinitionV1.
Record t := {
  name : string;
  product_name : string;
  product_version : string;
  available_service_names : list string }.
End DefinitionV1.

Module InstanceV1.
Record t := {
  name : string;
  definition_name : string;
  ready : bool;
  status_message : string;
  services : gmap string ServiceV1.t }.

(** [InstanceV1(definition_name=definition_name)] *)
Definition with_definition_name (definition_name : string) : t :=
  {| name := ""; definition_name := definition_name; ready := false;
     status_message := ""; services := ∅ |}.
End InstanceV1.

Module CreateInstanceRequest.
Record t := { instance : InstanceV1.t }.
End CreateInstanceRequest.

Module DeleteInstanceRequest.
Record t := { name : string }.
End DeleteInstanceRequest.

(** ** The stub and the calls issued through it *)

(** A [ProductInstanceManagerStub], known by the channel it was built on. *)
Record ProductInstanceManagerStub := { stub_channel : N }.

(** One call issued through a stub. *)
Inductive Rpc :=
| CreateInstance (stub : ProductInstanceManagerStub)
                 (request : CreateInstanceRequest.t) (timeout : option float)
| DeleteInstance (stub : ProductInstanceManagerStub)
                 (request : DeleteInstanceRequest.t) (timeout : option float).

(** The far end: what a call returns or raises, given the calls issued
    before it. *)
Record Server := {
  CreateInstance_reply :
    list Rpc -> ProductInstanceManagerStub -> CreateInstanceRequest.t ->
    option float -> result InstanceV1.t;
  DeleteInstance_reply :
    list Rpc -> ProductInstanceManagerStub -> DeleteInstanceRequest.t ->
    option float -> result unit }.

(** A method body with receiver state [S]: it may read and assign [self],
    issue calls, return or raise. *)
Definition M (S A : Type) : Type :=
  Server -> S * list Rpc -> (S * list Rpc) * result A.

Definition ret {S A} (a : A) : M S A := fun _ st => (st, Ok a).

Definition raise {S A} (e : Exception) : M S A := fun _ st => (st, Raise e).

Definition bind {S A B} (c : M S A) (k : A -> M S B) : M S B :=
  fun srv st =>
    match c srv st with
    | (st', Ok a) => k a srv st'
    | (st', Raise e) => (st', Raise e)
    end.

Notation "x <- c ;; k" := (bind c (fun x => k))
  (at level 100, c at next level, right associativity).

(** Evaluating an expression that returns or raises without side effect. *)
Definition lift {S A} (r : result A) : M S A := fun _ st => (st, r).

(** Reading [self]. *)
Definition get_self {S} : M S S := fun _ st => (st, Ok st.1).

(** Assigning the attributes of [self]. *)
Definition set_self {S} (self : S) : M S unit := fun _ st => ((self, st.2), Ok tt).

(** [stub.CreateInstance(request, timeout=timeout)]; [None] has no such
    attribute. *)
Definition stub_CreateInstance {S} (stub : option ProductInstanceManagerStub)
    (request : CreateInstanceRequest.t) (timeout : option float) : M S InstanceV1.t :=
  match stub with
  | None => raise (AttributeError "'NoneType' object has no attribute 'CreateInstance'")
  | Some stub =>
      fun srv st =>
        ((st.1, (st.2 ++ [CreateInstance stub request timeout])%list),
         CreateInstance_reply srv st.2 stub request timeout)
  end.

(** [stub.DeleteInstance(request, timeout=timeout)] *)
Definition stub_DeleteInstance {S} (stub : option ProductInstanceManagerStub)
    (request : DeleteInstanceRequest.t) (timeout : option float) : M S unit :=
  match stub with
  | None => raise (AttributeError "'NoneType' object has no attribute 'DeleteInstance'")
  | Some stub =>
      fun srv st =>
        ((st.1, (st.2 ++ [DeleteInstance stub request timeout])%list),
         DeleteInstance_reply srv st.2 stub request timeout)
  end.

(** ** service.py *)

(** What the grpc constructors called by the code build. *)
Inductive CallCredentials :=
| access_token_call_credentials (access_token : string).

Inductive ChannelCredentials :=
| ssl_channel_credentials
| composite_channel_credentials (channel_credentials : ChannelCredentials)
                                (call_credentials : CallCredentials).

(** [header_adder_interceptor(headers)], [headers] being the items of a
    mapping. *)
Inductive Interceptor :=
| header_adder_interceptor (headers : gmap string string).

(** [kwargs] is handed to grpc as it comes. *)
Inductive Channel :=
| secure_channel (target : string) (credentials : ChannelCredentials)
                 (kwargs : gmap string string)
| insecure_channel (target : string) (kwargs : gmap string string)
| intercept_channel (channel : Channel) (interceptor : Interceptor).

(** The object [default_configuration()] returns. *)
Record Configuration := { access_token : string }.

Module service.

Record Service := { uri : string; headers : gmap string string }.

(** [Service.__eq__] *)
Definition __eq__ (self : Service) (obj : object Service) : bool :=
  match obj with
  | instance_of obj =>
      dict_eq String.eqb (headers obj) (headers self)
      && String.eqb (uri obj) (uri self)
  | foreign _ => false
  end.

(** [self.uri.split(":")[-1]]; indexing an empty list raises. *)
Definition potential_port_number (self : Service) : result string :=
  match last (Str.split ":" (uri self)) with
  | Some token => Ok token
  | None => Raise (IndexError "list index out of range")
  end.

(** [potential_port_number.isdecimal() and int(potential_port_number) == 443] *)
Definition is_secure_port (interpreter : Interpreter)
    (potential_port_number : string) : result bool :=
  if Str.isdecimal interpreter potential_port_number then
    match Str.int interpreter potential_port_number with
    | Some (Ok n) => Ok (bool_decide (n = 443%Z))
    | Some (Raise e) => Raise e
    | None => Ok false
    end
  else Ok false.

(** [Service._build_grpc_channel]; [default_configuration] is what the
    call [default_configuration()] yields in the running process. *)
Definition _build_grpc_channel (interpreter : Interpreter)
    (default_configuration : result Configuration)
    (self : Service) (kwargs : gmap string string) : result Channel :=
  let headers := headers self in
  let interceptor := header_adder_interceptor headers in
  match potential_port_number self with
  | Raise e => Raise e
  | Ok potential_port_number =>
      match is_secure_port interpreter potential_port_number with
      | Raise e => Raise e
      | Ok true =>
          match default_configuration with
          | Raise e => Raise e
          | Ok configuration =>
              let credentials :=
                composite_channel_credentials
                  ssl_channel_credentials
                  (access_token_call_credentials (access_token configuration)) in
              let channel := secure_channel (uri self) credentials kwargs in
              Ok (intercept_channel channel interceptor)
          end
      | Ok false =>
          let channel := insecure_channel (uri self) kwargs in
          Ok (intercept_channel channel interceptor)
      end
  end.

(** [Service._from_pim_v1] *)
Definition _from_pim_v1 (service : ServiceV1.t) : Service :=
  {| uri := ServiceV1.uri service; headers := ServiceV1.headers service |}.

End service.

(** ** instance.py *)

Module instance.
Import service.

(** The dataclass [Instance]; [_stub] is declared with [compare=False]
    and defaults to [None]. *)
Record Instance := {
  definition_name : string;
  name : string;
  ready : bool;
  status_message : string;
  services : gmap string Service;
  _stub : option ProductInstanceManagerStub }.

(** The [__eq__] the dataclass decorator generates: objects of the same
    class compare as the tuples of their fields declared with [compare]. *)
Definition __eq__ (self : Instance) (other : object Instance) : comparison_result :=
  match other with
  | instance_of other =>
      Bool (String.eqb (definition_name self) (definition_name other)
            && String.eqb (name self) (name other)
            && Bool.eqb (ready self) (ready other)
            && String.eqb (status_message self) (status_message other)
            && dict_eq (fun a b => service.__eq__ a (instance_of b))
                 (services self) (services other))
  | foreign _ => NotImplemented
  end.

(** [Instance._from_pim_v1] *)
Definition _from_pim_v1 (instance : InstanceV1.t)
    (stub : option ProductInstanceManagerStub) : result Instance :=
  if Str.truthy (InstanceV1.name instance)
     && negb (Str.startswith (InstanceV1.name instance) "instances/")
  then Raise (ValueError "An instance name must start with `instances/`")
  else if negb (Str.truthy (InstanceV1.definition_name instance))
          || negb (Str.startswith (InstanceV1.definition_name instance) "definitions/")
  then Raise (ValueError "An instance must have a definition name that starts with definitions/")
  else Ok {| name := InstanceV1.name instance;
             definition_name := InstanceV1.definition_name instance;
             status_message := InstanceV1.status_message instance;
             services := service._from_pim_v1 <$> InstanceV1.services instance;
             ready := InstanceV1.ready instance;
             _stub := stub |}.

(** [Instance._create], a static method. *)
Definition _create (definition_name : string)
    (stub : option ProductInstanceManagerStub) (timeout : option float)
    : M unit Instance :=
  let request :=
    {| CreateInstanceRequest.instance :=
         InstanceV1.with_definition_name definition_name |} in
  instance <- stub_CreateInstance stub request timeout ;;
  lift (_from_pim_v1 instance stub).

(** [Instance.delete]; the receiver is a mutable object. *)
Definition delete (timeout : option float) : M Instance unit :=
  self <- get_self ;;
  let request := {| DeleteInstanceRequest.name := name self |} in
  stub_DeleteInstance (_stub self) request timeout.

End instance.

(** ** definition.py *)

Module definition.
Import instance.

(** The frozen dataclass [Definition]; [_stub] is declared with
    [compare=False] and defaults to [None]. *)
Record Definition_ := {
  name : string;
  product_name : string;
  product_version : string;
  available_service_names : Sequence;
  _stub : option ProductInstanceManagerStub }.

(** The [__eq__] the dataclass decorator generates. *)
Definition __eq__ (self : Definition_) (other : object Definition_) : comparison_result :=
  match other with
  | instance_of other =>
      Bool (String.eqb (name self) (name other)
            && String.eqb (product_name self) (product_name other)
            && String.eqb (product_version self) (product_version other)
            && sequence_eq (available_service_names self)
                 (available_service_names other))
  | foreign _ => NotImplemented
  end.

(** [Definition.create_instance]; the receiver is frozen. *)
Definition create_instance (self : Definition_) (timeout : option float)
    : M unit Instance :=
  instance._create (name self) (_stub self) timeout.

(** [Definition._from_pim_v1] *)
Definition _from_pim_v1 (definition : DefinitionV1.t)
    (stub : option ProductInstanceManagerStub) : result Definition_ :=
  if negb (Str.truthy (DefinitionV1.name definition))
     || negb (Str.startswith (DefinitionV1.name definition) "definitions/")
  then Raise (ValueError "A definition name must have a name that starts with ``definitions/``.")
  else if negb (Str.truthy (DefinitionV1.product_name definition))
  then Raise (ValueError "A definition must have a product name.")
  else if negb (Str.truthy (DefinitionV1.product_version definition))
  then Raise (ValueError "A definition must have a product version.")
  else if negb (match DefinitionV1.available_service_names definition with
                | [] => false | _ :: _ => true end)
          || (length (DefinitionV1.available_service_names definition) =? 0)%nat
  then Raise (ValueError "A definition must have at least one service name.")
  else Ok {| name := DefinitionV1.name definition;
             product_name := DefinitionV1.product_name definition;
             product_version := DefinitionV1.product_version definition;
             available_service_names :=
               repeated (DefinitionV1.available_service_names definition);
             _stub := stub |}.

End definition.

(** * Vocabulary of the properties *)

Section Vocabulary.
Import service.

(** Occurrence of a character in a string. *)
Fixpoint occurs (c : ascii) (s : string) : bool :=
  match s with
  | EmptyString => false
  | String a r => Ascii.eqb a c || occurs c r
  end.

(** [k] characters ['0']. *)
Fixpoint zeros (k : nat) : string :=
  match k with
  | O => ""
  | S k => String "0" (zeros k)
  end.

(** [t] is the candidate port token of [u]: what follows the last [':'],
    or all of [u] when it holds none. *)
Definition port_token (u t : string) : Prop :=
  occurs ":" t = false /\ (u = t \/ exists p, u = p ++ String ":" t).

(** Secure construction: a secure channel to the URI whose credentials
    compose TLS credentials with the access token of the process-wide
    configuration, wrapped with the header interceptor; it fails as the
    configuration does. *)
Definition secure_construction (default_configuration : result Configuration)
    (self : Service) (kwargs : gmap string string) : result Channel :=
  match default_configuration with
  | Ok configuration =>
      Ok (intercept_channel
            (secure_channel (uri self)
               (composite_channel_credentials ssl_channel_credentials
                  (access_token_call_credentials (access_token configuration)))
               kwargs)
            (header_adder_interceptor (headers self)))
  | Raise e => Raise e
  end.

(** Insecure construction: an insecure channel to the URI, wrapped with
    the header interceptor. *)
Definition insecure_construction (self : Service) (kwargs : gmap string string)
    : result Channel :=
  Ok (intercept_channel (insecure_channel (uri self) kwargs)
        (header_adder_interceptor (headers self))).

(** [s] starts with the prefix [p]. *)
Definition starts_with (p s : string) : Prop := exists r, s = p ++ r.

(** What makes a Definition message invalid. *)
Definition definition_violation (m : DefinitionV1.t) : Prop :=
  (DefinitionV1.name m = "" \/ ~ starts_with "definitions/" (DefinitionV1.name m))
  \/ DefinitionV1.product_name m = ""
  \/ DefinitionV1.product_version m = ""
  \/ DefinitionV1.available_service_names m = [].

(** A valid Definition message. *)
Definition definition_valid (m : DefinitionV1.t) : Prop :=
  starts_with "definitions/" (DefinitionV1.name m)
  /\ DefinitionV1.product_name m <> ""
  /\ DefinitionV1.product_version m <> ""
  /\ DefinitionV1.available_service_names m <> [].

(** The Definition that holds every field of the message, and the stub. *)
Definition definition_of (m : DefinitionV1.t)
    (stub : option ProductInstanceManagerStub) : definition.Definition_ :=
  {| definition.name := DefinitionV1.name m;
     definition.product_name := DefinitionV1.product_name m;
     definition.product_version := DefinitionV1.product_version m;
     definition.available_service_names :=
       repeated (DefinitionV1.available_service_names m);
     definition._stub := stub |}.

(** What makes an Instance message invalid. *)
Definition instance_violation (m : InstanceV1.t) : Prop :=
  (InstanceV1.name m <> "" /\ ~ starts_with "instances/" (InstanceV1.name m))
  \/ (InstanceV1.definition_name m = ""
      \/ ~ starts_with "definitions/" (InstanceV1.definition_name m)).

(** A valid Instance message. *)
Definition instance_valid (m : InstanceV1.t) : Prop :=
  (InstanceV1.name m = "" \/ starts_with "instances/" (InstanceV1.name m))
  /\ starts_with "definitions/" (InstanceV1.definition_name m).

(** The Instance that holds every field of the message, its services
    translated one by one, and the stub. *)
Definition instance_of_message (m : InstanceV1.t)
    (stub : option ProductInstanceManagerStub) : instance.Instance :=
  {| instance.definition_name := InstanceV1.definition_name m;
     instance.name := InstanceV1.name m;
     instance.ready := InstanceV1.ready m;
     instance.status_message := InstanceV1.status_message m;
     instance.services := service._from_pim_v1 <$> InstanceV1.services m;
     instance._stub := stub |}.

(** The same Definition with another stub. *)
Definition definition_with_stub (d : definition.Definition_)
    (stub : option ProductInstanceManagerStub) : definition.Definition_ :=
  {| definition.name := definition.name d;
     definition.product_name := definition.product_name d;
     definition.product_version := definition.product_version d;
     definition.available_service_names := definition.available_service_names d;
     definition._stub := stub |}.

(** The same Instance with another stub. *)
Definition instance_with_stub (i : instance.Instance)
    (stub : option ProductInstanceManagerStub) : instance.Instance :=
  {| instance.definition_name := instance.definition_name i;
     instance.name := instance.name i;
     instance.ready := instance.ready i;
     instance.status_message := instance.status_message i;
     instance.services := instance.services i;
     instance._stub := stub |}.

(** The request [Instance._create] sends for a definition name: an
    Instance record with nothing else set. *)
Definition creation_request (definition_name : string) : CreateInstanceRequest.t :=
  {| CreateInstanceRequest.instance :=
       {| InstanceV1.name := "";
          InstanceV1.definition_name := definition_name;
          InstanceV1.ready := false;
          InstanceV1.status_message := "";
          InstanceV1.services := ∅ |} |}.

(** The request [Instance.delete] sends for an instance name. *)
Definition deletion_request (name : string) : DeleteInstanceRequest.t :=
  {| DeleteInstanceRequest.name := name |}.

(** [t] holds a character that is not decimal. *)
Definition has_non_decimal (interpreter : Interpreter) (t : string) : Prop :=
  exists cs c,
    Str.code_points t = Some cs /\ In c cs
    /\ Str.decimal_value interpreter c = None.

(** A digit of base ten. *)
Definition is_digit (d : Z) : Prop := (0 <= d <= 9)%Z.

(** A sequence of digits without the zeros it starts with. *)
Fixpoint strip_zeros (ds : list Z) : list Z :=
  match ds with
  | 0%Z :: r => strip_zeros r
  | _ => ds
  end.

(** The digits 4, 4, 3. *)
Definition digits_443 : list Z := [4; 4; 3]%Z.

(** What [_build_grpc_channel] does for a candidate port token, told from
    the digits its characters stand for: the secure construction when
    there are digits, no more than the interpreter converts, that are
    443 behind zeros; the error of [int] when there are more; the
    insecure construction in every other case. *)
Definition construction_for (interpreter : Interpreter)
    (default_configuration : result Configuration)
    (self : Service) (kwargs : gmap string string) (token : string)
    : result Channel :=
  match Str.decimal_values interpreter token with
  | Some (d :: ds) =>
      if Str.within_limit interpreter (length (d :: ds)) then
        if bool_decide (strip_zeros (d :: ds) = digits_443)
        then secure_construction default_configuration self kwargs
        else insecure_construction self kwargs
      else Raise (Str.int_limit_error interpreter (length (d :: ds)))
  | _ => insecure_construction self kwargs
  end.

(** The name invariants of an Instance. *)
Definition instance_names_ok (i : instance.Instance) : Prop :=
  (instance.name i = "" \/ starts_with "instances/" (instance.name i))
  /\ starts_with "definitions/" (instance.definition_name i).

End Vocabulary.

(** ** Fixtures *)

(** The message of [test_from_pim_v1_proto]. *)
Definition my_def_message : DefinitionV1.t :=
  {| DefinitionV1.name := "definitions/my_def";
     DefinitionV1.product_name := "my_product";
     DefinitionV1.product_version := "221";
     DefinitionV1.available_service_names := ["grpc"; "http"] |}.

(** An Instance message that is not ready, says why, and lists a service. *)
Definition loading_message : InstanceV1.t :=
  {| InstanceV1.name := "instances/something-123";
     InstanceV1.definition_name := "definitions/my_def";
     InstanceV1.ready := false;
     InstanceV1.status_message := "loading...";
     InstanceV1.services :=
       {[ "grpc" := {| ServiceV1.uri := "product.example.com:50051";
                       ServiceV1.headers := ∅ |} ]} |}.

(** The stub, the definition and the timeout of [test_create_instance]. *)
Definition testing_stub : ProductInstanceManagerStub := {| stub_channel := 1 |}.

Definition my_def : definition.Definition_ :=
  {| definition.name := "definitions/my_def";
     definition.product_name := "my_product";
     definition.product_version := "221";
     definition.available_service_names :=
       {| sequence_type_of := list_type; items := ["grpc"; "http"] |};
     definition._stub := Some testing_stub |}.

(** The float 0.1. *)
Definition a_tenth : float := 0x1.999999999999ap-4%float.

(** A server that answers a creation with an instance that is loading
    and acknowledges a deletion. *)
Definition loading_server : Server :=
  {| CreateInstance_reply := fun _ _ request _ =>
       Ok {| InstanceV1.name := "instances/something-123";
             InstanceV1.definition_name :=
               InstanceV1.definition_name (CreateInstanceRequest.instance request);
             InstanceV1.ready := false;
             InstanceV1.status_message := "loading...";
             InstanceV1.services := ∅ |};
     DeleteInstance_reply := fun _ _ _ _ => Ok tt |}.

(** The instance of [test_create_instance], with a stub or without. *)
Definition loading_instance (stub : option ProductInstanceManagerStub)
    : instance.Instance :=
  {| instance.definition_name := "definitions/my_def";
     instance.name := "instances/something-123";
     instance.ready := false;
     instance.status_message := "loading...";
     instance.services := ∅;
     instance._stub := stub |}.

(** An instance that has no name yet. *)
Definition pending_instance (stub : option ProductInstanceManagerStub)
    : instance.Instance :=
  {| instance.definition_name := "definitions/my_def";
     instance.name := "";
     instance.ready := false;
     instance.status_message := "pending";
     instance.services := ∅;
     instance._stub := stub |}.

(** Part of a Unicode database: the Arabic-Indic digits U+0660 to U+0669
    and the fullwidth digits U+FF10 to U+FF19. *)
Definition some_unicode_decimal (c : N) : option digit :=
  let nth (n : N) : option digit :=
    match n with
    | 0 => Some D0 | 1 => Some D1 | 2 => Some D2 | 3 => Some D3
    | 4 => Some D4 | 5 => Some D5 | 6 => Some D6 | 7 => Some D7
    | 8 => Some D8 | 9 => Some D9 | _ => None
    end%N in
  if (1632 <=? c)%N && (c <=? 1641)%N then nth (c - 1632)%N
  else if (65296 <=? c)%N && (c <=? 65305)%N then nth (c - 65296)%N
  else None.

(** An interpreter with the default limit of 4300 digits. *)
Definition cpython : Interpreter :=
  {| unicode_decimal := some_unicode_decimal;
     int_max_str_digits := 4300;
     int_limit_message := fun _ =>
       "Exceeds the limit (4300 digits) for integer string conversion";
     int_max_str_digits_ok := or_intror (proj1 (N.leb_le 640 4300) eq_refl) |}.

(** The str of the Arabic-Indic digits 4, 4, 3 (U+0664 U+0664 U+0663). *)
Definition arabic_indic_443 : string :=
  String "217" (String "164" (String "217" (String "164"
    (String "217" (String "163" EmptyString))))).

(** The same Definition holding its service names in a tuple. *)
Definition my_def_with_tuple : definition.Definition_ :=
  {| definition.name := "definitions/my_def";
     definition.product_name := "my_product";
     definition.product_version := "221";
     definition.available_service_names :=
       {| sequence_type_of := tuple_type; items := ["grpc"; "http"] |};
     definition._stub := Some testing_stub |}.

(** A Service whose port token is 443 behind 4298 zeros: 4301 digits. *)
Definition long_443_service : service.Service :=
  {| service.uri := "product.example.com:" ++ (zeros 4298 ++ "443");
     service.headers := ∅ |}.

(** A Service whose port is written in Arabic-Indic digits. *)
Definition arabic_indic_service : service.Service :=
  {| service.uri := "product.example.com:" ++ arabic_indic_443;
     service.headers := ∅ |}.

(** A configuration that holds a token, and one that cannot be loaded. *)
Definition a_configuration : Configuration := {| access_token := "secret" |}.

Definition no_configuration : result Configuration :=
  Raise (ConfigurationError "no configuration").

(** Services on the ports 50051 and 443, and one whose URI goes on after
    the port. *)
Definition grpc_service : service.Service :=
  {| service.uri := "product.example.com:50051";
     service.headers := {[ "x-instance" := "something-123" ]} |}.

Definition tls_service : service.Service :=
  {| service.uri := "product.example.com:443"; service.headers := ∅ |}.

Definition http_service : service.Service :=
  {| service.uri := "https://product.example.com:443/api"; service.headers := ∅ |}.

(** A server whose answer to a creation has a name without its prefix. *)
Definition misnaming_server : Server :=
  {| CreateInstance_reply := fun _ _ request _ =>
       Ok {| InstanceV1.name := "something-123";
             InstanceV1.definition_name :=
               InstanceV1.definition_name (CreateInstanceRequest.instance request);
             InstanceV1.ready := false;
             InstanceV1.status_message := "loading...";
             InstanceV1.services := ∅ |};
     DeleteInstance_reply := fun _ _ _ _ => Ok tt |}.

(** A Definition message with a name, no product name and no version. *)
Definition nameless_product_message : DefinitionV1.t :=
  {| DefinitionV1.name := "definitions/my_def";
     DefinitionV1.product_name := "";
     DefinitionV1.product_version := "";
     DefinitionV1.available_service_names := [] |}.

(** * Properties *)

(** ** Strings *)

Section StringFacts.

Lemma truthy_true_iff (s : string) : Str.truthy s = true <-> s <> "".
Proof. destruct s; simpl; split; congruence. Qed.

Lemma truthy_false_iff (s : string) : Str.truthy s = false <-> s = "".
Proof. destruct s; simpl; split; congruence. Qed.

(** [startswith] holds exactly of the strings that extend the prefix. *)
Lemma startswith_iff (s p : string) :
  Str.startswith s p = true <-> exists r, s = p ++ r.
Proof.
  revert s; induction p as [|b p IH]; intros s; simpl.
  - split; [intros _; now exists s | reflexivity].
  - destruct s as [|a s].
    + split; [discriminate | intros [r Hr]; discriminate].
    + rewrite andb_true_iff, Ascii.eqb_eq, IH. split.
      * intros [-> [r ->]]. now exists r.
      * intros [r Hr]. injection Hr as -> ->. split; [reflexivity | now exists r].
Qed.

Lemma split_unfold sep c r :
  Str.split sep (String c r) =
  if Ascii.eqb c sep then "" :: Str.split sep r
  else match Str.split sep r with
       | seg :: segs => String c seg :: segs
       | [] => []
       end.
Proof.
  unfold Str.split; simpl.
  destruct (Str.split_segments sep r) as [seg segs].
  now destruct (Ascii.eqb c sep).
Qed.

Lemma split_nonempty sep s : Str.split sep s <> [].
Proof. unfold Str.split. now destruct (Str.split_segments sep s). Qed.

(** A string without separator is its own single segment. *)
Lemma split_clean sep t : occurs sep t = false -> Str.split sep t = [t].
Proof.
  induction t as [|c r IH]; simpl; [reflexivity|].
  intros H. apply orb_false_iff in H as [Hc Hr].
  rewrite split_unfold, Hc, (IH Hr). reflexivity.
Qed.

(** Cutting after a separator: the segments of both sides, in order. *)
Lemma split_app sep p t :
  Str.split sep (p ++ String sep t) = (Str.split sep p ++ Str.split sep t)%list.
Proof.
  induction p as [|c p IH].
  - change ("" ++ String sep t) with (String sep t).
    now rewrite split_unfold, Ascii.eqb_refl.
  - change (String c p ++ String sep t) with (String c (p ++ String sep t)).
    rewrite !split_unfold, IH.
    destruct (Ascii.eqb c sep); [reflexivity|].
    destruct (Str.split sep p) as [|seg segs] eqn:E; [|reflexivity].
    now apply split_nonempty in E.
Qed.

(** The last segment is what follows the last separator. *)
Lemma last_split_app sep p t :
  occurs sep t = false ->
  last (Str.split sep (p ++ String sep t)) = Some t.
Proof.
  intros Ht. rewrite split_app, (split_clean _ _ Ht). apply last_snoc.
Qed.

Lemma last_split_clean sep t :
  occurs sep t = false -> last (Str.split sep t) = Some t.
Proof. intros Ht. now rewrite (split_clean _ _ Ht). Qed.

(** A string that holds a separator is cut at its last one. *)
Lemma occurs_decompose sep s :
  occurs sep s = true ->
  exists p t, s = p ++ String sep t /\ occurs sep t = false.
Proof.
  induction s as [|c r IH]; simpl; [discriminate|].
  destruct (occurs sep r) eqn:Hr.
  - intros _. destruct (IH eq_refl) as (p & t & -> & Ht).
    now exists (String c p), t.
  - rewrite orb_false_r. intros ->%Ascii.eqb_eq. now exists "", r.
Qed.

(** The candidate port token of a URI. *)
Lemma last_split_iff sep s t :
  last (Str.split sep s) = Some t <->
  occurs sep t = false /\ (s = t \/ exists p, s = p ++ String sep t).
Proof.
  split.
  - intros H. destruct (occurs sep s) eqn:Hs.
    + destruct (occurs_decompose _ _ Hs) as (p & t' & -> & Ht').
      rewrite (last_split_app _ _ _ Ht') in H. injection H as ->.
      split; [assumption | right; now exists p].
    + rewrite (last_split_clean _ _ Hs) in H. injection H as ->.
      split; [assumption | now left].
  - intros [Ht [-> | [p ->]]].
    + now apply last_split_clean.
    + now apply last_split_app.
Qed.

End StringFacts.

(** ** Decimal tokens *)

Section DecimalFacts.

Open Scope Z_scope.

Lemma digit_value_range d : is_digit (digit_value d).
Proof. unfold is_digit. destruct d; simpl; lia. Qed.

Lemma decimal_value_range interpreter c d :
  Str.decimal_value interpreter c = Some d -> is_digit d.
Proof.
  unfold Str.decimal_value, is_digit.
  destruct (c <? 128)%N.
  - destruct (_ && _) eqn:E; [|discriminate]. intros [= <-].
    apply andb_true_iff in E as [?%N.leb_le ?%N.leb_le]. lia.
  - destruct (unicode_decimal interpreter c) as [x|]; [|discriminate].
    intros [= <-]. apply digit_value_range.
Qed.

Lemma mapM_decimal_range interpreter cs ds :
  mapM (Str.decimal_value interpreter) cs = Some ds -> Forall is_digit ds.
Proof.
  intros H. apply mapM_Some in H.
  induction H as [|c d cs ds Hc _ IH]; constructor; [|exact IH].
  exact (decimal_value_range _ _ _ Hc).
Qed.

Lemma decimal_values_range interpreter s ds :
  Str.decimal_values interpreter s = Some ds -> Forall is_digit ds.
Proof.
  unfold Str.decimal_values.
  destruct (Str.code_points s) as [cs|]; [|discriminate]. simpl.
  apply mapM_decimal_range.
Qed.

(** Reading on from a value never gives less. *)
Lemma fold_base_ten_ge ds acc :
  Forall is_digit ds -> 0 <= acc ->
  acc <= fold_left (fun a d => 10 * a + d) ds acc.
Proof.
  intros H. revert acc. induction H as [|d ds Hd _ IH]; intros acc Hacc; simpl.
  - lia.
  - unfold is_digit in Hd. specialize (IH (10 * acc + d)). lia.
Qed.

(** The digits that write 443: 4, 4, 3 behind any number of zeros. *)
Lemma base_ten_443 ds :
  Forall is_digit ds -> Str.base_ten ds = 443 <-> strip_zeros ds = digits_443.
Proof.
  unfold Str.base_ten, digits_443.
  induction 1 as [|d ds Hd Hds IH]; simpl.
  - split; discriminate.
  - unfold is_digit in Hd. destruct (Z.eq_dec d 0) as [-> | Hnz]; [exact IH|].
    replace (10 * 0 + d) with d by lia.
    assert (Hstrip : strip_zeros (d :: ds) = d :: ds)
      by (destruct d; [lia | reflexivity | reflexivity]).
    simpl in Hstrip. rewrite Hstrip.
    destruct Hds as [|d1 ds Hd1 Hds]; simpl.
    { split; [lia | intros [= -> ]]. }
    unfold is_digit in Hd1.
    destruct Hds as [|d2 ds Hd2 Hds]; simpl.
    { split; [lia | intros [= -> ]]. }
    unfold is_digit in Hd2.
    destruct Hds as [|d3 ds Hd3 Hds]; simpl.
    { split; [intros E; repeat f_equal; lia | intros [= -> -> ->]; reflexivity]. }
    unfold is_digit in Hd3. split; [|discriminate].
    intros E.
    pose proof (fold_base_ten_ge ds (10 * (10 * (10 * d + d1) + d2) + d3) Hds) as Hge.
    lia.
Qed.

Lemma strip_zeros_repeat k (ds : list Z) :
  strip_zeros (repeat 0 k ++ ds)%list = strip_zeros ds.
Proof. induction k as [|k IH]; [reflexivity | exact IH]. Qed.

(** A sequence within 640 digits is within the limit of every interpreter. *)
Lemma within_limit_small interpreter n :
  (n <= 640)%nat -> Str.within_limit interpreter n = true.
Proof.
  intros Hn. unfold Str.within_limit. apply orb_true_iff.
  destruct (int_max_str_digits_ok interpreter) as [-> | H].
  - now left.
  - right. apply N.leb_le. lia.
Qed.

(** The characters of an ASCII zero followed by a str. *)
Lemma decimal_values_zero interpreter s :
  Str.decimal_values interpreter (String "0" s)
  = cons 0 <$> Str.decimal_values interpreter s.
Proof.
  unfold Str.decimal_values. cbn [Str.code_points].
  change (N_of_ascii "0" <? 128)%N with true. cbn iota.
  destruct (Str.code_points s) as [cs|]; [|reflexivity]. simpl.
  now destruct (mapM (Str.decimal_value interpreter) cs).
Qed.

Lemma decimal_values_zeros interpreter k s :
  Str.decimal_values interpreter (zeros k ++ s)
  = app (repeat 0 k) <$> Str.decimal_values interpreter s.
Proof.
  induction k as [|k IH].
  - change (zeros 0 ++ s)%string with s. simpl.
    now destruct (Str.decimal_values interpreter s).
  - change (zeros (S k) ++ s)%string with (String "0" (zeros k ++ s)).
    rewrite decimal_values_zero, IH.
    now destruct (Str.decimal_values interpreter s).
Qed.

Lemma decimal_values_zeros_443 interpreter k :
  Str.decimal_values interpreter (zeros k ++ "443")
  = Some (repeat 0 k ++ digits_443)%list.
Proof. now rewrite decimal_values_zeros. Qed.

(** The port test, told from the digits of the token. *)
Lemma is_secure_port_cases interpreter token :
  service.is_secure_port interpreter token =
  match Str.decimal_values interpreter token with
  | Some (d :: ds) =>
      if Str.within_limit interpreter (length (d :: ds))
      then Ok (bool_decide (strip_zeros (d :: ds) = digits_443))
      else Raise (Str.int_limit_error interpreter (length (d :: ds)))
  | _ => Ok false
  end.
Proof.
  unfold service.is_secure_port, Str.isdecimal, Str.int.
  destruct (Str.decimal_values interpreter token) as [[|d ds]|] eqn:E;
    try reflexivity.
  destruct (Str.within_limit interpreter (length (d :: ds))); [|reflexivity].
  f_equal. apply bool_decide_ext, base_ten_443.
  exact (decimal_values_range _ _ _ E).
Qed.

End DecimalFacts.

(** ** Channel construction *)

Section ChannelFacts.
Import service.

Lemma potential_port_number_token (self : Service) :
  exists token, potential_port_number self = Ok token
                /\ port_token (uri self) token.
Proof.
  unfold potential_port_number.
  destruct (last (Str.split ":" (uri self))) as [token|] eqn:E.
  - exists token. split; [reflexivity | now apply last_split_iff in E].
  - apply last_None in E. now apply split_nonempty in E.
Qed.

Lemma port_token_unique u t t' : port_token u t -> port_token u t' -> t = t'.
Proof.
  intros H%last_split_iff H'%last_split_iff. congruence.
Qed.

(** The channel built, told from the candidate port token. *)
Lemma build_by_token interpreter cfg (self : Service) kwargs token :
  port_token (uri self) token ->
  _build_grpc_channel interpreter cfg self kwargs =
  construction_for interpreter cfg self kwargs token.
Proof.
  intros Ht. destruct (potential_port_number_token self) as (t & E & Ht').
  rewrite (port_token_unique _ _ _ Ht Ht').
  unfold _build_grpc_channel, construction_for.
  rewrite E, is_secure_port_cases.
  destruct (Str.decimal_values interpreter t) as [[|d ds]|]; try reflexivity.
  destruct (Str.within_limit interpreter (length (d :: ds))); [|reflexivity].
  destruct (bool_decide (strip_zeros (d :: ds) = digits_443)); [|reflexivity].
  unfold secure_construction. now destruct cfg.
Qed.

Lemma occurs_zeros_443 k : occurs ":" (zeros k ++ "443") = false.
Proof. induction k as [|k IH]; [reflexivity | exact IH]. Qed.

Lemma zeros_443_neq k : (zeros (S k) ++ "443")%string <> "443".
Proof.
  change (zeros (S k) ++ "443")%string with (String "0" (zeros k ++ "443")).
  discriminate.
Qed.

(** What is built for a token of ASCII zeros followed by 443. *)
Lemma construction_for_zeros_443 interpreter cfg (self : Service) kwargs k :
  construction_for interpreter cfg self kwargs (zeros k ++ "443") =
  if Str.within_limit interpreter (k + 3)
  then secure_construction cfg self kwargs
  else Raise (Str.int_limit_error interpreter (k + 3)).
Proof.
  unfold construction_for. rewrite decimal_values_zeros_443.
  assert (Hlen : length (repeat 0%Z k ++ digits_443)%list = (k + 3)%nat)
    by (rewrite length_app, repeat_length; reflexivity).
  assert (Hstrip : strip_zeros (repeat 0%Z k ++ digits_443)%list = digits_443)
    by (rewrite strip_zeros_repeat; reflexivity).
  destruct (repeat 0%Z k ++ digits_443)%list as [|d ds] eqn:E.
  - destruct k; discriminate E.
  - rewrite Hlen, Hstrip, bool_decide_eq_true_2 by reflexivity. reflexivity.
Qed.

End ChannelFacts.

(** ** Validation of wire messages *)

Section ValidationFacts.

Lemma startswith_false_iff s p : Str.startswith s p = false <-> ~ starts_with p s.
Proof.
  unfold starts_with. rewrite <- startswith_iff.
  destruct (Str.startswith s p); split; congruence.
Qed.

(** The two outcomes of [Definition._from_pim_v1]. *)
Lemma definition_from_pim_v1_cases m stub :
  (definition_violation m
   /\ exists msg, definition._from_pim_v1 m stub = Raise (ValueError msg))
  \/ (definition_valid m
      /\ definition._from_pim_v1 m stub = Ok (definition_of m stub)).
Proof.
  unfold definition._from_pim_v1, definition_violation, definition_valid.
  destruct (Str.truthy (DefinitionV1.name m)) eqn:Hn; cbn [negb orb andb].
  2:{ apply truthy_false_iff in Hn. left. split; [tauto | eexists; reflexivity]. }
  destruct (Str.startswith (DefinitionV1.name m) "definitions/") eqn:Hp; cbn [negb orb andb].
  2:{ apply startswith_false_iff in Hp. left. split; [tauto | eexists; reflexivity]. }
  apply startswith_iff in Hp.
  destruct (Str.truthy (DefinitionV1.product_name m)) eqn:Hpn; cbn [negb orb andb].
  2:{ apply truthy_false_iff in Hpn. left. split; [tauto | eexists; reflexivity]. }
  apply truthy_true_iff in Hpn.
  destruct (Str.truthy (DefinitionV1.product_version m)) eqn:Hpv; cbn [negb orb andb].
  2:{ apply truthy_false_iff in Hpv. left. split; [tauto | eexists; reflexivity]. }
  apply truthy_true_iff in Hpv.
  destruct (DefinitionV1.available_service_names m) as [|a l] eqn:Hl; cbn [negb orb andb length Nat.eqb].
  - left. split; [tauto | eexists; reflexivity].
  - right. split; [|unfold definition_of; now rewrite Hl].
    repeat split; try assumption. discriminate.
Qed.

Lemma definition_valid_not_violation m :
  definition_valid m -> ~ definition_violation m.
Proof.
  intros (Hn & Hpn & Hpv & Hl) [[E | Hp] | [E | [E | E]]]; try tauto.
  destruct Hn as [r Hr]. rewrite E in Hr. discriminate.
Qed.

(** The two outcomes of [Instance._from_pim_v1]. *)
Lemma instance_from_pim_v1_cases m stub :
  (instance_violation m
   /\ exists msg, instance._from_pim_v1 m stub = Raise (ValueError msg))
  \/ (instance_valid m
      /\ instance._from_pim_v1 m stub = Ok (instance_of_message m stub)).
Proof.
  unfold instance._from_pim_v1, instance_violation, instance_valid.
  assert (Hname : Str.truthy (InstanceV1.name m)
                  && negb (Str.startswith (InstanceV1.name m) "instances/") = true
                  /\ InstanceV1.name m <> ""
                  /\ ~ starts_with "instances/" (InstanceV1.name m)
                  \/ Str.truthy (InstanceV1.name m)
                     && negb (Str.startswith (InstanceV1.name m) "instances/") = false
                     /\ (InstanceV1.name m = ""
                         \/ starts_with "instances/" (InstanceV1.name m))).
  { destruct (Str.truthy (InstanceV1.name m)) eqn:Hn; cbn [negb andb].
    - apply truthy_true_iff in Hn.
      destruct (Str.startswith (InstanceV1.name m) "instances/") eqn:Hp; cbn [negb].
      + apply startswith_iff in Hp. right. tauto.
      + apply startswith_false_iff in Hp. left. tauto.
    - apply truthy_false_iff in Hn. right. tauto. }
  destruct Hname as [(-> & Hne & Hp) | [-> Hname]].
  { left. split; [tauto | eexists; reflexivity]. }
  destruct (Str.truthy (InstanceV1.definition_name m)) eqn:Hd; cbn [negb orb].
  2:{ apply truthy_false_iff in Hd. left. split; [tauto | eexists; reflexivity]. }
  destruct (Str.startswith (InstanceV1.definition_name m) "definitions/") eqn:Hq;
    cbn [negb].
  2:{ apply startswith_false_iff in Hq. left. split; [tauto | eexists; reflexivity]. }
  apply startswith_iff in Hq. right. split; [tauto | reflexivity].
Qed.

Lemma instance_valid_not_violation m :
  instance_valid m -> ~ instance_violation m.
Proof.
  intros [Hn Hd] [[Hne Hp] | [E | Hq]]; try tauto.
  destruct Hd as [r Hr]. rewrite E in Hr. discriminate.
Qed.

End ValidationFacts.

(** ** Equality *)

Section EqualityFacts.

(** [dict_eq] decides equality of dicts when the values' comparison
    decides equality of values. *)
Lemma dict_eq_iff {V} (value_eq : V -> V -> bool) (a b : gmap string V) :
  (forall x y, value_eq x y = true <-> x = y) ->
  dict_eq value_eq a b = true <-> a = b.
Proof.
  intros Hveq. unfold dict_eq.
  rewrite andb_true_iff, bool_decide_eq_true, forallb_forall. split.
  - intros [Hsize Hall]. apply map_subseteq_size_eq; [|lia].
    apply map_subseteq_spec. intros k v Hk.
    specialize (Hall (k, v)). cbn [fst snd] in Hall.
    destruct (b !! k) as [w|].
    + f_equal. symmetry. apply Hveq, Hall.
      now apply list_elem_of_In, elem_of_map_to_list.
    + discriminate Hall. now apply list_elem_of_In, elem_of_map_to_list.
  - intros <-. split; [reflexivity|]. intros [k v] Hin. cbn [fst snd].
    apply list_elem_of_In, elem_of_map_to_list in Hin. rewrite Hin.
    now apply Hveq.
Qed.

Lemma service_eq_iff (self obj : service.Service) :
  service.__eq__ self (instance_of obj) = true
  <-> service.uri self = service.uri obj
      /\ service.headers self = service.headers obj.
Proof.
  unfold service.__eq__.
  rewrite andb_true_iff, String.eqb_eq, (dict_eq_iff _ _ _ String.eqb_eq).
  split; intros [? ?]; split; congruence.
Qed.

Lemma service_eq_leibniz (self obj : service.Service) :
  service.__eq__ self (instance_of obj) = true <-> self = obj.
Proof.
  rewrite service_eq_iff. destruct self, obj; simpl. split.
  - intros [-> ->]. reflexivity.
  - intros [= -> ->]. now split.
Qed.

Lemma comparable_sym a b : comparable a b = comparable b a.
Proof. now destruct a, b. Qed.

Lemma comparable_refl a : comparable a a = true.
Proof. now destruct a. Qed.

(** Two sequences compare equal when they hold the same values and are
    of types that compare by their values. *)
Lemma sequence_eq_iff (a b : Sequence) :
  sequence_eq a b = true
  <-> items a = items b
      /\ comparable (sequence_type_of a) (sequence_type_of b) = true.
Proof.
  unfold sequence_eq. rewrite andb_true_iff, bool_decide_eq_true. tauto.
Qed.

Lemma sequence_eq_refl (a : Sequence) : sequence_eq a a = true.
Proof. apply sequence_eq_iff. split; [reflexivity | apply comparable_refl]. Qed.

Lemma definition_eq_refl (d : definition.Definition_) :
  definition.__eq__ d (instance_of d) = Bool true.
Proof.
  unfold definition.__eq__.
  now rewrite !String.eqb_refl, sequence_eq_refl.
Qed.

Lemma instance_eq_refl (i : instance.Instance) :
  instance.__eq__ i (instance_of i) = Bool true.
Proof.
  unfold instance.__eq__.
  rewrite !String.eqb_refl, Bool.eqb_reflx.
  assert (E : dict_eq (fun a b => service.__eq__ a (instance_of b))
                (instance.services i) (instance.services i) = true)
    by (apply dict_eq_iff; [apply service_eq_leibniz | reflexivity]).
  now rewrite E.
Qed.

Lemma Bool_true_iff b : Bool b = Bool true <-> b = true.
Proof. split; [now intros [= ->] | now intros ->]. Qed.

(** The comparisons of the two dataclasses, field by field. *)
Lemma instance_eq_fields (a b : instance.Instance) :
  instance.__eq__ a (instance_of b) = Bool true
  <-> instance.definition_name a = instance.definition_name b
      /\ instance.name a = instance.name b
      /\ instance.ready a = instance.ready b
      /\ instance.status_message a = instance.status_message b
      /\ instance.services a = instance.services b.
Proof.
  unfold instance.__eq__. split.
  - intros [= H]. repeat (apply andb_true_iff in H as [H ?]).
    apply String.eqb_eq in H. repeat split; try assumption.
    + now apply String.eqb_eq.
    + now apply Bool.eqb_true_iff.
    + now apply String.eqb_eq.
    + now apply (dict_eq_iff _ _ _ service_eq_leibniz).
  - intros (-> & -> & -> & -> & ->). apply instance_eq_refl.
Qed.

Lemma definition_eq_fields (a b : definition.Definition_) :
  definition.__eq__ a (instance_of b) = Bool true
  <-> definition.name a = definition.name b
      /\ definition.product_name a = definition.product_name b
      /\ definition.product_version a = definition.product_version b
      /\ items (definition.available_service_names a)
         = items (definition.available_service_names b)
      /\ comparable
           (sequence_type_of (definition.available_service_names a))
           (sequence_type_of (definition.available_service_names b)) = true.
Proof.
  unfold definition.__eq__.
  rewrite Bool_true_iff, !andb_true_iff, !String.eqb_eq, sequence_eq_iff.
  tauto.
Qed.

End EqualityFacts.

(** ** Calls to the server *)

Section RpcFacts.

Lemma create_run srv definition_name stub timeout calls :
  instance._create definition_name (Some stub) timeout srv (tt, calls) =
  ((tt, (calls ++ [CreateInstance stub (creation_request definition_name) timeout])%list),
   match CreateInstance_reply srv calls stub (creation_request definition_name) timeout with
   | Ok response => instance._from_pim_v1 response (Some stub)
   | Raise e => Raise e
   end).
Proof.
  unfold instance._create, bind, stub_CreateInstance, lift. cbn [fst snd].
  fold (InstanceV1.with_definition_name definition_name).
  now destruct (CreateInstance_reply srv calls stub _ timeout).
Qed.

(** Without a stub nothing is sent. *)
Lemma create_run_no_stub srv definition_name timeout calls :
  exists msg,
    instance._create definition_name None timeout srv (tt, calls)
    = ((tt, calls), Raise (AttributeError msg)).
Proof. eexists. reflexivity. Qed.

Lemma delete_run srv (self : instance.Instance) stub timeout calls :
  instance._stub self = Some stub ->
  instance.delete timeout srv (self, calls) =
  ((self, (calls ++ [DeleteInstance stub (deletion_request (instance.name self)) timeout])%list),
   DeleteInstance_reply srv calls stub (deletion_request (instance.name self)) timeout).
Proof.
  intros Hstub.
  unfold instance.delete, bind, get_self, stub_DeleteInstance. cbn [fst snd].
  rewrite Hstub. reflexivity.
Qed.

Lemma delete_run_no_stub srv (self : instance.Instance) timeout calls :
  instance._stub self = None ->
  exists msg,
    instance.delete timeout srv (self, calls)
    = ((self, calls), Raise (AttributeError msg)).
Proof.
  intros Hstub.
  unfold instance.delete, bind, get_self, stub_DeleteInstance. cbn [fst snd].
  rewrite Hstub. eexists. reflexivity.
Qed.

End RpcFacts.

Section Claims.
Import service.

(** C1, as the code has it. [_build_grpc_channel] decides on the candidate
    port token of the URI, its segment after the last [':']. When every
    character of the token is a decimal digit, there is at least one,
    the digits are no more than the interpreter converts and they write
    443 (that is 4, 4, 3 behind any number of zeros), the result is the
    secure construction: TLS credentials composed with the access token
    of the process-wide configuration. When the token is decimal with
    more digits than the interpreter converts, [int] raises and so does
    the method. In every other case the result is the insecure
    construction. On every interpreter ["product.example.com:443"] is
    built securely, ["product.example.com:50051"] and
    ["product.example.com:abc"] insecurely. *)
Theorem build_channel_security_mode :
  (forall interpreter cfg (self : Service) kwargs,
      exists token,
        port_token (uri self) token
        /\ _build_grpc_channel interpreter cfg self kwargs =
           match Str.decimal_values interpreter token with
           | Some (d :: ds) =>
               if Str.within_limit interpreter (length (d :: ds)) then
                 if bool_decide (strip_zeros (d :: ds) = [4; 4; 3]%Z)
                 then secure_construction cfg self kwargs
                 else insecure_construction self kwargs
               else Raise (Str.int_limit_error interpreter (length (d :: ds)))
           | _ => insecure_construction self kwargs
           end)
  /\ (forall interpreter cfg h kwargs,
        let self := {| uri := "product.example.com:443"; headers := h |} in
        _build_grpc_channel interpreter cfg self kwargs
        = secure_construction cfg self kwargs)
  /\ (forall interpreter cfg h kwargs,
        let self := {| uri := "product.example.com:50051"; headers := h |} in
        _build_grpc_channel interpreter cfg self kwargs
        = insecure_construction self kwargs)
  /\ (forall interpreter cfg h kwargs,
        let self := {| uri := "product.example.com:abc"; headers := h |} in
        _build_grpc_channel interpreter cfg self kwargs
        = insecure_construction self kwargs).
Proof.
  split; [|split; [|split]].
  - intros interpreter cfg self kwargs.
    destruct (potential_port_number_token self) as (token & _ & Ht).
    exists token. split; [assumption|].
    exact (build_by_token interpreter cfg self kwargs token Ht).
  - intros interpreter cfg h kwargs self.
    rewrite (build_by_token interpreter cfg self kwargs "443").
    + pose proof (construction_for_zeros_443 interpreter cfg self kwargs 0) as E.
      change (zeros 0 ++ "443")%string with "443" in E. rewrite E.
      now rewrite within_limit_small by lia.
    + split; [reflexivity | right; now exists "product.example.com"].
  - intros interpreter cfg h kwargs self.
    rewrite (build_by_token interpreter cfg self kwargs "50051").
    + unfold construction_for.
      assert (E : Str.decimal_values interpreter "50051" = Some [5; 0; 0; 5; 1]%Z)
        by reflexivity.
      rewrite E, within_limit_small by (simpl; lia).
      now rewrite bool_decide_eq_false_2 by discriminate.
    + split; [reflexivity | right; now exists "product.example.com"].
  - intros interpreter cfg h kwargs self.
    rewrite (build_by_token interpreter cfg self kwargs "abc").
    + reflexivity.
    + split; [reflexivity | right; now exists "product.example.com"].
Qed.

(** C1 fails as stated: on an interpreter with the default limit, a token
    of 4301 decimal digits that write 443 makes the method raise the
    error of [int]; no channel is built, secure or insecure. *)
Lemma build_channel_raises_on_long_token :
  port_token (uri long_443_service) (zeros 4298 ++ "443")
  /\ Str.isdecimal cpython (zeros 4298 ++ "443") = true
  /\ (exists ds,
        Str.decimal_values cpython (zeros 4298 ++ "443") = Some ds
        /\ length ds = 4301 /\ Str.base_ten ds = 443%Z)
  /\ _build_grpc_channel cpython (Ok a_configuration) long_443_service ∅
     = Raise (Str.int_limit_error cpython 4301).
Proof.
  assert (Ht : port_token (uri long_443_service) (zeros 4298 ++ "443")).
  { split; [apply occurs_zeros_443 | right; now exists "product.example.com"]. }
  assert (Hd : Str.decimal_values cpython (zeros 4298 ++ "443")
               = Some (repeat 0%Z 4298 ++ digits_443)%list)
    by apply decimal_values_zeros_443.
  split; [exact Ht|]. split; [|split].
  - unfold Str.isdecimal. now rewrite Hd.
  - exists (repeat 0%Z 4298 ++ digits_443)%list. split; [exact Hd|].
    split; [now rewrite length_app, repeat_length|].
    apply base_ten_443.
    + exact (decimal_values_range _ _ _ Hd).
    + apply strip_zeros_repeat.
  - rewrite (build_by_token cpython _ _ _ _ Ht).
    rewrite (construction_for_zeros_443 cpython _ _ _ 4298). reflexivity.
Qed.

(** C10. The security decision compares the value of the token with 443,
    not its characters: behind any prefix, a token made of one or more
    zeros followed by [443] differs from the string ["443"] and is built
    securely as long as the interpreter converts that many digits (beyond
    that [int] raises), as ["product.example.com:0443"] is on every
    interpreter; tokens that hold the characters [443] but write another
    number, as in ["product.example.com:1443"] and
    ["product.example.com:4430"], are built insecurely. *)
Theorem build_channel_zero_padded_443 :
  (forall interpreter cfg p k h kwargs,
      let token := (zeros (S k) ++ "443")%string in
      let self := {| uri := p ++ String ":" token; headers := h |} in
      token <> "443"
      /\ _build_grpc_channel interpreter cfg self kwargs =
         if Str.within_limit interpreter (S k + 3)
         then secure_construction cfg self kwargs
         else Raise (Str.int_limit_error interpreter (S k + 3)))
  /\ (forall interpreter cfg h kwargs,
        let self := {| uri := "product.example.com:0443"; headers := h |} in
        "0443" <> "443"
        /\ _build_grpc_channel interpreter cfg self kwargs
           = secure_construction cfg self kwargs)
  /\ (forall interpreter cfg h kwargs,
        let self := {| uri := "product.example.com:1443"; headers := h |} in
        _build_grpc_channel interpreter cfg self kwargs
        = insecure_construction self kwargs)
  /\ (forall interpreter cfg h kwargs,
        let self := {| uri := "product.example.com:4430"; headers := h |} in
        _build_grpc_channel interpreter cfg self kwargs
        = insecure_construction self kwargs).
Proof.
  assert (H : forall interpreter cfg p k h kwargs,
      let token := (zeros (S k) ++ "443")%string in
      let self := {| uri := p ++ String ":" token; headers := h |} in
      token <> "443"
      /\ _build_grpc_channel interpreter cfg self kwargs =
         if Str.within_limit interpreter (S k + 3)
         then secure_construction cfg self kwargs
         else Raise (Str.int_limit_error interpreter (S k + 3))).
  { intros interpreter cfg p k h kwargs token self. split; [apply zeros_443_neq|].
    rewrite (build_by_token interpreter cfg self kwargs token).
    - apply construction_for_zeros_443.
    - split; [apply (occurs_zeros_443 (S k)) | right; now exists p]. }
  split; [exact H|]. split; [|split].
  - intros interpreter cfg h kwargs self.
    destruct (H interpreter cfg "product.example.com" O h kwargs) as [Hne E].
    split; [exact Hne|]. etransitivity; [exact E|].
    now rewrite within_limit_small by lia.
  - intros interpreter cfg h kwargs self.
    rewrite (build_by_token interpreter cfg self kwargs "1443").
    + unfold construction_for.
      assert (E : Str.decimal_values interpreter "1443" = Some [1; 4; 4; 3]%Z)
        by reflexivity.
      rewrite E, within_limit_small by (simpl; lia).
      now rewrite bool_decide_eq_false_2 by discriminate.
    + split; [reflexivity | right; now exists "product.example.com"].
  - intros interpreter cfg h kwargs self.
    rewrite (build_by_token interpreter cfg self kwargs "4430").
    + unfold construction_for.
      assert (E : Str.decimal_values interpreter "4430" = Some [4; 4; 3; 0]%Z)
        by reflexivity.
      rewrite E, within_limit_small by (simpl; lia).
      now rewrite bool_decide_eq_false_2 by discriminate.
    + split; [reflexivity | right; now exists "product.example.com"].
Qed.

(** C3. [Definition._from_pim_v1] raises a [ValueError] exactly when the
    message breaks an invariant: its name is empty or does not start with
    ["definitions/"], its product name is empty, its product version is
    empty, or it lists no service name. It either raises or returns the
    Definition that holds every field of the message and the stub, never
    anything in between. *)
Theorem definition_from_wire_fails_iff (m : DefinitionV1.t)
    (stub : option ProductInstanceManagerStub) :
  ((exists msg, definition._from_pim_v1 m stub = Raise (ValueError msg))
   <-> definition_violation m)
  /\ (definition._from_pim_v1 m stub = Ok (definition_of m stub)
      \/ exists msg, definition._from_pim_v1 m stub = Raise (ValueError msg)).
Proof.
  destruct (definition_from_pim_v1_cases m stub) as [[Hv Hr] | [Hv Hr]].
  - split; [tauto | now right].
  - split; [|now left]. split.
    + intros [msg E]. congruence.
    + intros Hbad. now apply definition_valid_not_violation in Hv.
Qed.

(** C4. [Instance._from_pim_v1] raises a [ValueError] exactly when the
    name is not empty and does not start with ["instances/"], or the
    definition name is empty or does not start with ["definitions/"]; in
    every other case it returns the Instance of the message. A message
    with an empty name and a well-formed definition name is accepted. *)
Theorem instance_from_wire_fails_iff :
  (forall (m : InstanceV1.t) (stub : option ProductInstanceManagerStub),
      ((exists msg, instance._from_pim_v1 m stub = Raise (ValueError msg))
       <-> instance_violation m)
      /\ (instance._from_pim_v1 m stub = Ok (instance_of_message m stub)
          \/ exists msg, instance._from_pim_v1 m stub = Raise (ValueError msg)))
  /\ (forall r ready status_message services stub,
        let m := {| InstanceV1.name := "";
                    InstanceV1.definition_name := "definitions/" ++ r;
                    InstanceV1.ready := ready;
                    InstanceV1.status_message := status_message;
                    InstanceV1.services := services |} in
        instance._from_pim_v1 m stub = Ok (instance_of_message m stub)).
Proof.
  split.
  - intros m stub.
    destruct (instance_from_pim_v1_cases m stub) as [[Hv Hr] | [Hv Hr]].
    + split; [tauto | now right].
    + split; [|now left]. split.
      * intros [msg E]. congruence.
      * intros Hbad. now apply instance_valid_not_violation in Hv.
  - intros r ready status_message services stub m.
    destruct (instance_from_pim_v1_cases m stub) as [[Hv _] | [_ Hr]];
      [exfalso | exact Hr].
    revert Hv. apply instance_valid_not_violation.
    split; [now left | now exists r].
Qed.

(** C5. On a valid Definition message, [Definition._from_pim_v1] returns a
    Definition whose name, product name and product version are those of
    the message, and whose service names are the message's, up to order. *)
Theorem definition_from_wire_round_trip (m : DefinitionV1.t)
    (stub : option ProductInstanceManagerStub) :
  definition_valid m ->
  exists d,
    definition._from_pim_v1 m stub = Ok d
    /\ definition.name d = DefinitionV1.name m
    /\ definition.product_name d = DefinitionV1.product_name m
    /\ definition.product_version d = DefinitionV1.product_version m
    /\ Permutation (definition.available_service_names d)
         (DefinitionV1.available_service_names m).
Proof.
  intros Hv.
  destruct (definition_from_pim_v1_cases m stub) as [[Hbad _] | [_ Hr]].
  - now apply definition_valid_not_violation in Hv.
  - exists (definition_of m stub). repeat split; [exact Hr | apply Permutation_refl].
Qed.

Lemma my_def_message_valid : definition_valid my_def_message.
Proof.
  repeat split; try discriminate. now exists "my_def".
Defined.

Lemma definition_from_wire_round_trip_witness :
  exists d,
    definition._from_pim_v1 my_def_message None = Ok d
    /\ definition.name d = "definitions/my_def"
    /\ definition.product_name d = "my_product"
    /\ definition.product_version d = "221"
    /\ Permutation (definition.available_service_names d) ["grpc"; "http"].
Proof.
  exact (definition_from_wire_round_trip my_def_message None my_def_message_valid).
Defined.

(** C2, as the code has it. [Instance._from_pim_v1] does not look at
    [ready] or [status_message]: on every message that passes the name
    checks it returns an Instance whose services are the entries of the
    message's services field, key by key, each translated by
    [Service._from_pim_v1]; they are empty exactly when that field is. *)
Theorem instance_from_wire_services (m : InstanceV1.t)
    (stub : option ProductInstanceManagerStub) :
  instance_valid m ->
  exists i,
    instance._from_pim_v1 m stub = Ok i
    /\ instance.ready i = InstanceV1.ready m
    /\ instance.status_message i = InstanceV1.status_message m
    /\ (forall k, instance.services i !! k
                  = service._from_pim_v1 <$> (InstanceV1.services m !! k))
    /\ (instance.services i = ∅ <-> InstanceV1.services m = ∅).
Proof.
  intros Hv.
  destruct (instance_from_pim_v1_cases m stub) as [[Hbad _] | [_ Hr]].
  - now apply instance_valid_not_violation in Hv.
  - exists (instance_of_message m stub).
    split; [exact Hr|]. split; [reflexivity|]. split; [reflexivity|]. split.
    + intros k. cbn [instance_of_message instance.services]. apply lookup_fmap.
    + cbn [instance_of_message instance.services]. apply fmap_empty_iff.
Qed.

Lemma loading_message_valid : instance_valid loading_message.
Proof.
  split; [right; now exists "something-123" | now exists "my_def"].
Defined.

Lemma instance_from_wire_services_witness :
  exists i,
    instance._from_pim_v1 loading_message None = Ok i
    /\ instance.ready i = false
    /\ instance.status_message i = "loading..."
    /\ (forall k, instance.services i !! k
                  = service._from_pim_v1 <$> (InstanceV1.services loading_message !! k))
    /\ (instance.services i = ∅ <-> InstanceV1.services loading_message = ∅).
Proof.
  exact (instance_from_wire_services loading_message None loading_message_valid).
Defined.

(** C2 fails as stated: a message that is not ready and carries a status
    message is translated with the service it lists. *)
Lemma instance_from_wire_keeps_services_when_not_ready :
  InstanceV1.ready loading_message = false
  /\ InstanceV1.status_message loading_message <> ""
  /\ exists i,
       instance._from_pim_v1 loading_message None = Ok i
       /\ instance.services i !! "grpc"
          = Some {| service.uri := "product.example.com:50051";
                    service.headers := ∅ |}
       /\ instance.services i <> ∅.
Proof.
  split; [reflexivity|]. split; [discriminate|].
  exists (instance_of_message loading_message None).
  split; [reflexivity|].
  assert (H : instance.services (instance_of_message loading_message None) !! "grpc"
              = Some {| service.uri := "product.example.com:50051";
                        service.headers := ∅ |}).
  { cbn [instance_of_message instance.services loading_message InstanceV1.services].
    rewrite lookup_fmap, lookup_singleton_eq. reflexivity. }
  split; [exact H|].
  intros E. rewrite E, lookup_empty in H. discriminate.
Qed.

(** C6, for a Definition that holds a stub. [create_instance] adds
    exactly one call to the calls issued so far: a creation through the
    Definition's stub, with the given timeout, whose request carries the
    Definition's name as definition name and nothing else. What it returns
    or raises is what [Instance._from_pim_v1] makes of the response with
    that stub; a failure of the call is raised as it is. *)
Theorem create_instance_one_rpc (srv : Server) (self : definition.Definition_)
    (stub : ProductInstanceManagerStub) (timeout : option float) (calls : list Rpc) :
  definition._stub self = Some stub ->
  let request := creation_request (definition.name self) in
  definition.create_instance self timeout srv (tt, calls) =
  ((tt, (calls ++ [CreateInstance stub request timeout])%list),
   match CreateInstance_reply srv calls stub request timeout with
   | Ok response => instance._from_pim_v1 response (Some stub)
   | Raise e => Raise e
   end).
Proof.
  intros Hstub request. unfold definition.create_instance.
  rewrite Hstub. apply create_run.
Qed.

Lemma create_instance_one_rpc_witness :
  definition.create_instance my_def (Some a_tenth) loading_server (tt, []) =
  ((tt, [CreateInstance testing_stub (creation_request "definitions/my_def")
           (Some a_tenth)]),
   Ok (loading_instance (Some testing_stub))).
Proof.
  exact (create_instance_one_rpc loading_server my_def testing_stub
           (Some a_tenth) [] eq_refl).
Defined.

(** C6 fails as stated: the Definition that [_from_pim_v1] builds when no
    stub is given sends nothing, [create_instance] raises on the missing
    attribute. *)
Lemma create_instance_without_stub :
  definition._from_pim_v1 my_def_message None = Ok (definition_of my_def_message None)
  /\ definition.create_instance (definition_of my_def_message None)
       (Some a_tenth) loading_server (tt, [])
     = ((tt, []),
        Raise (AttributeError "'NoneType' object has no attribute 'CreateInstance'")).
Proof. split; reflexivity. Qed.

(** C7, for an Instance that holds a stub. [delete] adds exactly one call
    to the calls issued so far: a deletion through the Instance's stub,
    keyed by the Instance's name, with the given timeout. It leaves every
    field of the Instance as it was, returns nothing when the call
    succeeds, and raises what the call raises. *)
Theorem delete_one_rpc (srv : Server) (self : instance.Instance)
    (stub : ProductInstanceManagerStub) (timeout : option float) (calls : list Rpc) :
  instance._stub self = Some stub ->
  let request := deletion_request (instance.name self) in
  let out := instance.delete timeout srv (self, calls) in
  out.1.2 = (calls ++ [DeleteInstance stub request timeout])%list
  /\ out.1.1 = self
  /\ out.2 = match DeleteInstance_reply srv calls stub request timeout with
             | Ok _ => Ok tt
             | Raise e => Raise e
             end.
Proof.
  intros Hstub request out. subst out request.
  rewrite (delete_run _ _ _ _ _ Hstub). cbn [fst snd].
  repeat split.
  now destruct (DeleteInstance_reply srv calls stub _ timeout) as [[]|].
Qed.

Lemma delete_one_rpc_witness :
  let self := loading_instance (Some testing_stub) in
  let out := instance.delete (Some a_tenth) loading_server (self, []) in
  out.1.2 = [DeleteInstance testing_stub
               (deletion_request "instances/something-123") (Some a_tenth)]
  /\ out.1.1 = self
  /\ out.2 = Ok tt.
Proof.
  exact (delete_one_rpc loading_server (loading_instance (Some testing_stub))
           testing_stub (Some a_tenth) [] eq_refl).
Defined.

(** C7 fails as stated: an Instance built without a stub sends nothing,
    [delete] raises on the missing attribute. *)
Lemma delete_without_stub :
  instance.delete (Some a_tenth) loading_server (loading_instance None, [])
  = ((loading_instance None, []),
     Raise (AttributeError "'NoneType' object has no attribute 'DeleteInstance'")).
Proof. reflexivity. Qed.

(** C9, for an Instance that holds a stub. [delete] checks nothing before
    the call: whatever the name of the Instance, it sends one deletion
    keyed by that name and its outcome is the outcome of that call; for
    an Instance whose name is empty the deletion is keyed by the empty
    name. *)
Theorem delete_without_local_check (srv : Server) (self : instance.Instance)
    (stub : ProductInstanceManagerStub) (timeout : option float) (calls : list Rpc) :
  instance._stub self = Some stub ->
  instance.delete timeout srv (self, calls) =
  ((self, (calls ++ [DeleteInstance stub (deletion_request (instance.name self))
                       timeout])%list),
   DeleteInstance_reply srv calls stub (deletion_request (instance.name self))
     timeout)
  /\ (instance.name self = "" ->
      instance.delete timeout srv (self, calls) =
      ((self, (calls ++ [DeleteInstance stub (deletion_request "") timeout])%list),
       DeleteInstance_reply srv calls stub (deletion_request "") timeout)).
Proof.
  intros Hstub.
  pose proof (delete_run srv self stub timeout calls Hstub) as E.
  split; [exact E|]. intros Hname. now rewrite Hname in E.
Qed.

Lemma delete_without_local_check_witness :
  instance.delete None loading_server (pending_instance (Some testing_stub), [])
  = ((pending_instance (Some testing_stub),
      [DeleteInstance testing_stub (deletion_request "") None]),
     Ok tt)
  /\ (instance.name (pending_instance (Some testing_stub)) = "" ->
      instance.delete None loading_server (pending_instance (Some testing_stub), [])
      = ((pending_instance (Some testing_stub),
          [DeleteInstance testing_stub (deletion_request "") None]),
         Ok tt)).
Proof.
  exact (delete_without_local_check loading_server
           (pending_instance (Some testing_stub)) testing_stub None [] eq_refl).
Defined.

(** C9 fails as stated: a pending Instance without a stub fails before
    any call is sent. *)
Lemma delete_pending_without_stub :
  instance.name (pending_instance None) = ""
  /\ instance.delete None loading_server (pending_instance None, [])
     = ((pending_instance None, []),
        Raise (AttributeError "'NoneType' object has no attribute 'DeleteInstance'")).
Proof. split; reflexivity. Qed.

(** C8. Equality looks at the payload fields and at nothing else. Two
    Services compare equal exactly when their URIs are equal and their
    headers are equal. Two Definitions compare equal exactly when their
    names, product names, product versions and service names are equal,
    the service names being held in sequences that compare by their
    values; two Instances exactly when their definition names, names,
    readiness, status messages and services are equal. The outcome is
    the same whatever stubs the objects hold; two that differ only in
    the stub compare equal. *)
Theorem equality_is_structural :
  (forall self obj : service.Service,
      service.__eq__ self (instance_of obj) = true
      <-> service.uri self = service.uri obj
          /\ service.headers self = service.headers obj)
  /\ (forall d1 d2 : definition.Definition_,
        definition.__eq__ d1 (instance_of d2) = Bool true
        <-> definition.name d1 = definition.name d2
            /\ definition.product_name d1 = definition.product_name d2
            /\ definition.product_version d1 = definition.product_version d2
            /\ items (definition.available_service_names d1)
               = items (definition.available_service_names d2)
            /\ comparable
                 (sequence_type_of (definition.available_service_names d1))
                 (sequence_type_of (definition.available_service_names d2))
               = true)
  /\ (forall i1 i2 : instance.Instance,
        instance.__eq__ i1 (instance_of i2) = Bool true
        <-> instance.definition_name i1 = instance.definition_name i2
            /\ instance.name i1 = instance.name i2
            /\ instance.ready i1 = instance.ready i2
            /\ instance.status_message i1 = instance.status_message i2
            /\ instance.services i1 = instance.services i2)
  /\ (forall d1 d2 stub1 stub2,
        definition.__eq__ (definition_with_stub d1 stub1)
          (instance_of (definition_with_stub d2 stub2))
        = definition.__eq__ d1 (instance_of d2))
  /\ (forall d stub,
        definition.__eq__ d (instance_of (definition_with_stub d stub)) = Bool true)
  /\ (forall i1 i2 stub1 stub2,
        instance.__eq__ (instance_with_stub i1 stub1)
          (instance_of (instance_with_stub i2 stub2))
        = instance.__eq__ i1 (instance_of i2))
  /\ (forall i stub,
        instance.__eq__ i (instance_of (instance_with_stub i stub)) = Bool true).
Proof.
  split; [exact service_eq_iff|].
  split; [exact definition_eq_fields|].
  split; [exact instance_eq_fields|].
  split; [reflexivity|].
  split; [intros d stub; exact (definition_eq_refl d)|].
  split; [reflexivity|].
  intros i stub. exact (instance_eq_refl i).
Qed.

End Claims.

(** * Further properties *)

(** ** Channel construction *)

Section ChannelProperties.
Import service.

Lemma decimal_values_non_decimal interpreter t :
  has_non_decimal interpreter t -> Str.decimal_values interpreter t = None.
Proof.
  intros (cs & c & Hcs & Hin & Hc). unfold Str.decimal_values.
  rewrite Hcs. simpl. apply mapM_None_2, Exists_exists.
  exists c. split; [now apply list_elem_of_In | exact Hc].
Qed.

Lemma construction_for_non_decimal interpreter cfg (self : Service) kwargs t :
  t = "" \/ has_non_decimal interpreter t ->
  construction_for interpreter cfg self kwargs t
  = insecure_construction self kwargs.
Proof.
  unfold construction_for. intros [-> | H]; [reflexivity|].
  now rewrite (decimal_values_non_decimal _ _ H).
Qed.

(** What a token must be for [construction_for] to build securely. *)
Lemma construction_for_secure interpreter cfg (self : Service) kwargs token
    target credentials kwargs' interceptor :
  construction_for interpreter cfg self kwargs token
  = Ok (intercept_channel (secure_channel target credentials kwargs') interceptor) ->
  secure_construction cfg self kwargs
  = Ok (intercept_channel (secure_channel target credentials kwargs') interceptor)
  /\ exists ds,
       Str.decimal_values interpreter token = Some ds
       /\ strip_zeros ds = digits_443
       /\ Str.within_limit interpreter (length ds) = true.
Proof.
  unfold construction_for.
  destruct (Str.decimal_values interpreter token) as [[|d ds]|];
    try discriminate.
  destruct (Str.within_limit interpreter (length (d :: ds))) eqn:Hl;
    [|discriminate].
  destruct (bool_decide (strip_zeros (d :: ds) = digits_443)) eqn:Hs;
    [|discriminate].
  intros E. split; [exact E|]. exists (d :: ds).
  split; [reflexivity|]. split; [now apply bool_decide_eq_true in Hs | exact Hl].
Qed.

(** X1. Whatever the port, a channel that [_build_grpc_channel] returns is
    an intercepted channel: the interceptor adds the headers of the
    Service, and the channel under it, insecure or secure, goes to the
    URI of the Service with the caller's arguments unchanged. *)
Theorem build_channel_wraps_headers interpreter cfg (self : Service) kwargs ch :
  _build_grpc_channel interpreter cfg self kwargs = Ok ch ->
  exists inner,
    ch = intercept_channel inner (header_adder_interceptor (headers self))
    /\ (inner = insecure_channel (uri self) kwargs
        \/ exists credentials, inner = secure_channel (uri self) credentials kwargs).
Proof.
  destruct (potential_port_number_token self) as (token & _ & Ht).
  rewrite (build_by_token interpreter cfg self kwargs token Ht).
  unfold construction_for.
  assert (Hsec : forall ch, secure_construction cfg self kwargs = Ok ch ->
            exists inner,
              ch = intercept_channel inner (header_adder_interceptor (headers self))
              /\ (inner = insecure_channel (uri self) kwargs
                  \/ exists credentials,
                       inner = secure_channel (uri self) credentials kwargs)).
  { intros ch'. unfold secure_construction. destruct cfg as [c|e]; [|discriminate].
    intros [= <-]. eexists. split; [reflexivity|]. right. now eexists. }
  assert (Hins : forall ch, insecure_construction self kwargs = Ok ch ->
            exists inner,
              ch = intercept_channel inner (header_adder_interceptor (headers self))
              /\ (inner = insecure_channel (uri self) kwargs
                  \/ exists credentials,
                       inner = secure_channel (uri self) credentials kwargs)).
  { intros ch'. unfold insecure_construction. intros [= <-].
    eexists. split; [reflexivity | now left]. }
  destruct (Str.decimal_values interpreter token) as [[|d ds]|];
    [apply Hins | | apply Hins].
  destruct (Str.within_limit interpreter (length (d :: ds))); [|discriminate].
  destruct (bool_decide (strip_zeros (d :: ds) = digits_443));
    [apply Hsec | apply Hins].
Qed.

Lemma build_channel_wraps_headers_witness :
  exists inner,
    intercept_channel (insecure_channel "product.example.com:50051" ∅)
      (header_adder_interceptor {[ "x-instance" := "something-123" ]})
    = intercept_channel inner (header_adder_interceptor (headers grpc_service))
    /\ (inner = insecure_channel (uri grpc_service) ∅
        \/ exists credentials, inner = secure_channel (uri grpc_service) credentials ∅).
Proof.
  exact (build_channel_wraps_headers cpython no_configuration grpc_service ∅ _
           eq_refl).
Defined.

(** X2. A secure channel is built only for a URI whose candidate port
    token is made of decimal digits, in whatever script, that are no
    more than the interpreter converts and write 443 (4, 4, 3 behind any
    number of zeros); its credentials are always TLS credentials composed
    with the access token of the configuration. *)
Theorem secure_channel_only_for_443 interpreter c (self : Service) kwargs
    target credentials kwargs' interceptor :
  _build_grpc_channel interpreter (Ok c) self kwargs
  = Ok (intercept_channel (secure_channel target credentials kwargs') interceptor) ->
  credentials = composite_channel_credentials ssl_channel_credentials
                  (access_token_call_credentials (access_token c))
  /\ exists token ds,
       port_token (uri self) token
       /\ Str.decimal_values interpreter token = Some ds
       /\ strip_zeros ds = [4; 4; 3]%Z
       /\ Str.within_limit interpreter (length ds) = true.
Proof.
  destruct (potential_port_number_token self) as (token & _ & Ht).
  rewrite (build_by_token interpreter (Ok c) self kwargs token Ht).
  intros [E (ds & Hds & Hstrip & Hl)]%construction_for_secure.
  split.
  - unfold secure_construction in E. now injection E as _ <- _ _.
  - now exists token, ds.
Qed.

Lemma secure_channel_only_for_443_witness :
  composite_channel_credentials ssl_channel_credentials
    (access_token_call_credentials "secret")
  = composite_channel_credentials ssl_channel_credentials
      (access_token_call_credentials (access_token a_configuration))
  /\ exists token ds,
       port_token (uri tls_service) token
       /\ Str.decimal_values cpython token = Some ds
       /\ strip_zeros ds = [4; 4; 3]%Z
       /\ Str.within_limit cpython (length ds) = true.
Proof.
  exact (secure_channel_only_for_443 cpython a_configuration tls_service ∅
           _ _ _ _ eq_refl).
Defined.

(** X4. When anything that is not a decimal character follows the last
    [':'] of the URI (a path, a sign, a space), or nothing follows it,
    the channel is insecure and the configuration is not consulted: the
    result is the same whether it can be loaded or not. *)
Theorem build_channel_insecure_on_non_decimal interpreter cfg p t h kwargs :
  occurs ":" t = false ->
  t = "" \/ has_non_decimal interpreter t ->
  let self := {| uri := p ++ String ":" t; headers := h |} in
  _build_grpc_channel interpreter cfg self kwargs
  = insecure_construction self kwargs.
Proof.
  intros Ht Hnd self.
  rewrite (build_by_token interpreter cfg self kwargs t).
  - now apply construction_for_non_decimal.
  - split; [exact Ht | right; now exists p].
Qed.

Lemma build_channel_insecure_on_non_decimal_witness :
  _build_grpc_channel cpython no_configuration http_service ∅
  = insecure_construction http_service ∅.
Proof.
  refine (build_channel_insecure_on_non_decimal cpython no_configuration
            "https://product.example.com" "443/api" ∅ ∅ eq_refl _).
  right. exists [52; 52; 51; 47; 97; 112; 105]%N, 47%N.
  split; [reflexivity|]. split; [|reflexivity].
  right. right. right. now left.
Defined.

(** X16. A token of decimal digits of any script that are no more than
    the interpreter converts and write 443 is built securely: so is a
    token of the Arabic-Indic digits 4, 4, 3 on an interpreter whose
    Unicode database knows them. *)
Theorem build_channel_secure_in_any_script interpreter cfg (self : Service)
    kwargs token ds :
  port_token (uri self) token ->
  Str.decimal_values interpreter token = Some ds ->
  strip_zeros ds = [4; 4; 3]%Z ->
  Str.within_limit interpreter (length ds) = true ->
  _build_grpc_channel interpreter cfg self kwargs
  = secure_construction cfg self kwargs.
Proof.
  intros Ht Hds Hstrip Hl.
  rewrite (build_by_token interpreter cfg self kwargs token Ht).
  unfold construction_for. rewrite Hds.
  destruct ds as [|d ds]; [discriminate Hstrip|].
  rewrite Hl. unfold digits_443.
  now rewrite bool_decide_eq_true_2.
Qed.

Lemma build_channel_secure_in_any_script_witness :
  _build_grpc_channel cpython (Ok a_configuration) arabic_indic_service ∅
  = secure_construction (Ok a_configuration) arabic_indic_service ∅.
Proof.
  refine (build_channel_secure_in_any_script cpython (Ok a_configuration)
            arabic_indic_service ∅ arabic_indic_443 [4; 4; 3]%Z
            _ eq_refl eq_refl eq_refl).
  split; [reflexivity | right; now exists "product.example.com"].
Defined.

End ChannelProperties.

(** ** Equality and translation *)

Section EqualityProperties.

Lemma service_from_pim_v1_inj a b :
  service._from_pim_v1 a = service._from_pim_v1 b -> a = b.
Proof. destruct a, b. unfold service._from_pim_v1. simpl. now intros [= -> ->]. Qed.

Lemma services_from_pim_v1_inj (a b : gmap string ServiceV1.t) :
  service._from_pim_v1 <$> a = service._from_pim_v1 <$> b -> a = b.
Proof.
  intros H. apply map_eq. intros k.
  apply (f_equal (fun m => m !! k)) in H. rewrite !lookup_fmap in H.
  destruct (a !! k) as [x|], (b !! k) as [y|]; simpl in H;
    try discriminate; [|reflexivity].
  assert (E : service._from_pim_v1 x = service._from_pim_v1 y) by congruence.
  now rewrite (service_from_pim_v1_inj _ _ E).
Qed.

(** The comparisons of the two dataclasses, field by field. *)
(** X5. Two Instances compare equal exactly when they have the same
    definition name, name, readiness, status message and services; an
    Instance compared with an object of another class gives
    [NotImplemented]. *)
Theorem instance_eq_iff :
  (forall self other : instance.Instance,
      instance.__eq__ self (instance_of other) = Bool true
      <-> instance.definition_name self = instance.definition_name other
          /\ instance.name self = instance.name other
          /\ instance.ready self = instance.ready other
          /\ instance.status_message self = instance.status_message other
          /\ instance.services self = instance.services other)
  /\ (forall (self : instance.Instance) class_name,
        instance.__eq__ self (foreign class_name) = NotImplemented).
Proof.
  split; [|reflexivity]. intros self other. unfold instance.__eq__.
  rewrite Bool_true_iff, !andb_true_iff, !String.eqb_eq, Bool.eqb_true_iff.
  rewrite (dict_eq_iff _ _ _ service_eq_leibniz). tauto.
Qed.

(** X6. Two Definitions compare equal exactly when they have the same
    name, product name and product version and hold the same service
    names, in the same order, in sequences that compare by their values:
    a list and a tuple of the same names make two unequal Definitions.
    A Definition compared with an object of another class gives
    [NotImplemented]. *)
Theorem definition_eq_iff :
  (forall self other : definition.Definition_,
      definition.__eq__ self (instance_of other) = Bool true
      <-> definition.name self = definition.name other
          /\ definition.product_name self = definition.product_name other
          /\ definition.product_version self = definition.product_version other
          /\ items (definition.available_service_names self)
             = items (definition.available_service_names other)
          /\ comparable
               (sequence_type_of (definition.available_service_names self))
               (sequence_type_of (definition.available_service_names other))
             = true)
  /\ (forall name product_name product_version names stub1 stub2,
        let with_list :=
          {| definition.name := name;
             definition.product_name := product_name;
             definition.product_version := product_version;
             definition.available_service_names :=
               {| sequence_type_of := list_type; items := names |};
             definition._stub := stub1 |} in
        let with_tuple :=
          {| definition.name := name;
             definition.product_name := product_name;
             definition.product_version := product_version;
             definition.available_service_names :=
               {| sequence_type_of := tuple_type; items := names |};
             definition._stub := stub2 |} in
        definition.__eq__ with_list (instance_of with_tuple) = Bool false
        /\ definition.__eq__ with_tuple (instance_of with_list) = Bool false)
  /\ (forall (self : definition.Definition_) class_name,
        definition.__eq__ self (foreign class_name) = NotImplemented).
Proof.
  split; [|split; [|reflexivity]].
  - intros self other. unfold definition.__eq__.
    rewrite Bool_true_iff, !andb_true_iff, !String.eqb_eq.
    unfold sequence_eq. rewrite andb_true_iff, bool_decide_eq_true. tauto.
  - intros name product_name product_version names stub1 stub2 with_list with_tuple.
    unfold definition.__eq__, sequence_eq. simpl.
    now rewrite !andb_false_r.
Qed.

(** X7. Translation of Instance messages loses nothing: when two
    messages are accepted, with whatever stubs, the Instances compare
    equal exactly when the messages are equal, services and their
    headers included. *)
Theorem instance_from_wire_eq_iff (m1 m2 : InstanceV1.t) stub1 stub2 i1 i2 :
  instance._from_pim_v1 m1 stub1 = Ok i1 ->
  instance._from_pim_v1 m2 stub2 = Ok i2 ->
  instance.__eq__ i1 (instance_of i2) = Bool true <-> m1 = m2.
Proof.
  intros H1 H2.
  destruct (instance_from_pim_v1_cases m1 stub1) as [[_ [msg E]] | [_ E1]];
    [congruence|].
  destruct (instance_from_pim_v1_cases m2 stub2) as [[_ [msg E]] | [_ E2]];
    [congruence|].
  rewrite E1 in H1. rewrite E2 in H2. injection H1 as <-. injection H2 as <-.
  rewrite instance_eq_fields. unfold instance_of_message. simpl. split.
  - intros (Hd & Hn & Hr & Hs & Hsv). apply services_from_pim_v1_inj in Hsv.
    destruct m1, m2. simpl in *. congruence.
  - intros <-. repeat split.
Qed.

Lemma instance_from_wire_eq_iff_witness :
  instance.__eq__ (instance_of_message loading_message None)
    (instance_of (instance_of_message loading_message (Some testing_stub)))
  = Bool true
  <-> loading_message = loading_message.
Proof.
  exact (instance_from_wire_eq_iff loading_message loading_message
           None (Some testing_stub) _ _ eq_refl eq_refl).
Defined.

(** X8. Translation of Definition messages loses nothing: when two
    messages are accepted, with whatever stubs, the Definitions compare
    equal exactly when the messages are equal. *)
Theorem definition_from_wire_eq_iff (m1 m2 : DefinitionV1.t) stub1 stub2 d1 d2 :
  definition._from_pim_v1 m1 stub1 = Ok d1 ->
  definition._from_pim_v1 m2 stub2 = Ok d2 ->
  definition.__eq__ d1 (instance_of d2) = Bool true <-> m1 = m2.
Proof.
  intros H1 H2.
  destruct (definition_from_pim_v1_cases m1 stub1) as [[_ [msg E]] | [_ E1]];
    [congruence|].
  destruct (definition_from_pim_v1_cases m2 stub2) as [[_ [msg E]] | [_ E2]];
    [congruence|].
  rewrite E1 in H1. rewrite E2 in H2. injection H1 as <-. injection H2 as <-.
  rewrite definition_eq_fields. unfold definition_of. simpl. split.
  - intros (Hn & Hpn & Hpv & Hl & _). destruct m1, m2. simpl in *. congruence.
  - intros <-. repeat split.
Qed.

Lemma definition_from_wire_eq_iff_witness :
  definition.__eq__ (definition_of my_def_message None)
    (instance_of (definition_of my_def_message (Some testing_stub)))
  = Bool true
  <-> my_def_message = my_def_message.
Proof.
  exact (definition_from_wire_eq_iff my_def_message my_def_message
           None (Some testing_stub) _ _ eq_refl eq_refl).
Defined.

End EqualityProperties.

(** ** Creation and deletion *)

Section LifecycleProperties.

(** X9. [Instance._create] validates the response after the call has
    been made: when the server answers with a message that breaks a name
    invariant, the creation has been issued all the same and the caller
    gets a [ValueError], not an Instance. *)
Theorem create_sent_before_validation (srv : Server) definition_name
    (stub : ProductInstanceManagerStub) timeout calls response :
  CreateInstance_reply srv calls stub (creation_request definition_name) timeout
  = Ok response ->
  instance_violation response ->
  exists msg,
    instance._create definition_name (Some stub) timeout srv (tt, calls)
    = ((tt, (calls ++ [CreateInstance stub (creation_request definition_name)
                         timeout])%list),
       Raise (ValueError msg)).
Proof.
  intros Hreply Hbad. rewrite create_run, Hreply.
  destruct (instance_from_pim_v1_cases response (Some stub))
    as [[_ [msg E]] | [Hv _]].
  - exists msg. now rewrite E.
  - now apply instance_valid_not_violation in Hv.
Qed.

Lemma create_sent_before_validation_witness :
  exists msg,
    instance._create "definitions/my_def" (Some testing_stub) None
      misnaming_server (tt, [])
    = ((tt, [CreateInstance testing_stub (creation_request "definitions/my_def")
               None]),
       Raise (ValueError msg)).
Proof.
  refine (create_sent_before_validation misnaming_server "definitions/my_def"
            testing_stub None [] _ eq_refl _).
  left. split; [discriminate|]. intros [r Hr]. discriminate Hr.
Defined.

(** X10. Whatever the server answers, an Instance that [create_instance]
    returns satisfies the name invariants (its name is empty or starts
    with ["instances/"], its definition name starts with ["definitions/"])
    and holds the stub of the Definition. *)
Theorem create_instance_returns_valid (srv : Server) (self : definition.Definition_)
    timeout calls st i :
  definition.create_instance self timeout srv (tt, calls) = (st, Ok i) ->
  instance_names_ok i /\ instance._stub i = definition._stub self.
Proof.
  unfold definition.create_instance.
  destruct (definition._stub self) as [stub|] eqn:Hstub.
  - rewrite create_run.
    destruct (CreateInstance_reply srv calls stub _ timeout) as [response|e];
      [|discriminate].
    destruct (instance_from_pim_v1_cases response (Some stub))
      as [[_ [msg E]] | [Hv E]]; rewrite E; [discriminate|].
    intros [= _ <-]. split; [exact Hv | reflexivity].
  - destruct (create_run_no_stub srv (definition.name self) timeout calls)
      as [msg E].
    rewrite E. discriminate.
Qed.

Lemma create_instance_returns_valid_witness :
  instance_names_ok (loading_instance (Some testing_stub))
  /\ instance._stub (loading_instance (Some testing_stub)) = definition._stub my_def.
Proof.
  exact (create_instance_returns_valid loading_server my_def (Some a_tenth) []
           _ _ eq_refl).
Defined.

(** X11. Creation followed by deletion: when the server's answer to the
    creation is accepted, deleting the returned Instance issues, through
    the same stub, a deletion keyed by the name the server gave, so that
    the calls issued are the creation and then that deletion. *)
Theorem create_then_delete (srv : Server) (self : definition.Definition_)
    (stub : ProductInstanceManagerStub) timeout1 timeout2 calls response :
  definition._stub self = Some stub ->
  CreateInstance_reply srv calls stub
    (creation_request (definition.name self)) timeout1 = Ok response ->
  instance_valid response ->
  let created := CreateInstance stub (creation_request (definition.name self))
                   timeout1 in
  let deleted := DeleteInstance stub (deletion_request (InstanceV1.name response))
                   timeout2 in
  exists i,
    definition.create_instance self timeout1 srv (tt, calls)
    = ((tt, (calls ++ [created])%list), Ok i)
    /\ (instance.delete timeout2 srv (i, (calls ++ [created])%list)).1
       = (i, (calls ++ [created; deleted])%list).
Proof.
  intros Hstub Hreply Hv created deleted.
  exists (instance_of_message response (Some stub)). split.
  - unfold definition.create_instance. rewrite Hstub, create_run, Hreply.
    destruct (instance_from_pim_v1_cases response (Some stub))
      as [[Hbad _] | [_ E]].
    + now apply instance_valid_not_violation in Hv.
    + now rewrite E.
  - rewrite (delete_run srv (instance_of_message response (Some stub)) stub
               timeout2 _ eq_refl).
    cbn [fst instance_of_message instance.name]. now rewrite <- app_assoc.
Qed.

Lemma create_then_delete_witness :
  let created := CreateInstance testing_stub
                   (creation_request "definitions/my_def") (Some a_tenth) in
  let deleted := DeleteInstance testing_stub
                   (deletion_request "instances/something-123") None in
  exists i,
    definition.create_instance my_def (Some a_tenth) loading_server (tt, [])
    = ((tt, [created]), Ok i)
    /\ (instance.delete None loading_server (i, [created])).1
       = (i, [created; deleted]).
Proof.
  refine (create_then_delete loading_server my_def testing_stub (Some a_tenth)
            None [] _ eq_refl eq_refl _).
  split; [right; now exists "something-123" | now exists "my_def"].
Defined.

(** X12. Deletion leaves the handle usable: whether the first deletion
    succeeds or fails, a second [delete] on the same Instance issues the
    same request once more. *)
Theorem delete_twice (srv : Server) (self : instance.Instance)
    (stub : ProductInstanceManagerStub) timeout calls :
  instance._stub self = Some stub ->
  let deleted := DeleteInstance stub (deletion_request (instance.name self))
                   timeout in
  (instance.delete timeout srv (instance.delete timeout srv (self, calls)).1).1
  = (self, (calls ++ [deleted; deleted])%list).
Proof.
  intros Hstub deleted.
  rewrite (delete_run srv self stub timeout calls Hstub). cbn [fst].
  rewrite (delete_run srv self stub timeout _ Hstub). cbn [fst].
  now rewrite <- app_assoc.
Qed.

Lemma delete_twice_witness :
  let self := loading_instance (Some testing_stub) in
  let deleted := DeleteInstance testing_stub
                   (deletion_request "instances/something-123") None in
  (instance.delete None loading_server
     (instance.delete None loading_server (self, [])).1).1
  = (self, [deleted; deleted]).
Proof.
  exact (delete_twice loading_server (loading_instance (Some testing_stub))
           testing_stub None [] eq_refl).
Defined.

End LifecycleProperties.

(** ** Which error a message gets *)

Section ErrorProperties.

Lemma not_starts_with_empty p : p <> "" -> ~ starts_with p "".
Proof. intros Hp [r Hr]. destruct p; [congruence | discriminate Hr]. Qed.

Ltac settle_iff :=
  split;
  [ intros E; first [discriminate E | tauto]
  | intros H; first [reflexivity | exfalso; tauto] ].

(** X13. [Definition._from_pim_v1] reports the first check that fails, in
    the order name, product name, product version, service names: each
    of its four messages is raised exactly when the checks before it pass
    and its own check fails. *)
Theorem definition_error_precedence (m : DefinitionV1.t)
    (stub : option ProductInstanceManagerStub) :
  (definition._from_pim_v1 m stub
   = Raise (ValueError "A definition name must have a name that starts with ``definitions/``.")
   <-> DefinitionV1.name m = ""
       \/ ~ starts_with "definitions/" (DefinitionV1.name m))
  /\ (definition._from_pim_v1 m stub
      = Raise (ValueError "A definition must have a product name.")
      <-> starts_with "definitions/" (DefinitionV1.name m)
          /\ DefinitionV1.product_name m = "")
  /\ (definition._from_pim_v1 m stub
      = Raise (ValueError "A definition must have a product version.")
      <-> starts_with "definitions/" (DefinitionV1.name m)
          /\ DefinitionV1.product_name m <> ""
          /\ DefinitionV1.product_version m = "")
  /\ (definition._from_pim_v1 m stub
      = Raise (ValueError "A definition must have at least one service name.")
      <-> starts_with "definitions/" (DefinitionV1.name m)
          /\ DefinitionV1.product_name m <> ""
          /\ DefinitionV1.product_version m <> ""
          /\ DefinitionV1.available_service_names m = []).
Proof.
  unfold definition._from_pim_v1.
  destruct (Str.truthy (DefinitionV1.name m)) eqn:Hn; cbn [negb orb].
  2:{ apply truthy_false_iff in Hn.
      assert (Hp : ~ starts_with "definitions/" (DefinitionV1.name m))
        by (rewrite Hn; now apply not_starts_with_empty).
      split; [|split; [|split]]; settle_iff. }
  destruct (Str.startswith (DefinitionV1.name m) "definitions/") eqn:Hp;
    cbn [negb].
  2:{ apply startswith_false_iff in Hp. split; [|split; [|split]]; settle_iff. }
  apply startswith_iff in Hp. fold (starts_with "definitions/" (DefinitionV1.name m)) in Hp.
  apply truthy_true_iff in Hn.
  destruct (Str.truthy (DefinitionV1.product_name m)) eqn:Hpn; cbn [negb].
  2:{ apply truthy_false_iff in Hpn. split; [|split; [|split]]; settle_iff. }
  apply truthy_true_iff in Hpn.
  destruct (Str.truthy (DefinitionV1.product_version m)) eqn:Hpv; cbn [negb].
  2:{ apply truthy_false_iff in Hpv. split; [|split; [|split]]; settle_iff. }
  apply truthy_true_iff in Hpv.
  destruct (DefinitionV1.available_service_names m) as [|a l] eqn:Hl;
    cbn [negb orb length Nat.eqb].
  - split; [|split; [|split]]; settle_iff.
  - assert (Hne : a :: l <> []) by discriminate. split; [|split; [|split]]; settle_iff.
Qed.

(** X14. [Instance._from_pim_v1] checks the name first: the message about
    the instance name is raised exactly when the name is not empty and
    lacks its prefix, whatever the definition name is; the message about
    the definition name only when the name passes. *)
Theorem instance_error_precedence (m : InstanceV1.t)
    (stub : option ProductInstanceManagerStub) :
  (instance._from_pim_v1 m stub
   = Raise (ValueError "An instance name must start with `instances/`")
   <-> InstanceV1.name m <> ""
       /\ ~ starts_with "instances/" (InstanceV1.name m))
  /\ (instance._from_pim_v1 m stub
      = Raise (ValueError "An instance must have a definition name that starts with definitions/")
      <-> (InstanceV1.name m = "" \/ starts_with "instances/" (InstanceV1.name m))
          /\ (InstanceV1.definition_name m = ""
              \/ ~ starts_with "definitions/" (InstanceV1.definition_name m))).
Proof.
  unfold instance._from_pim_v1.
  assert (Hname : Str.truthy (InstanceV1.name m)
                  && negb (Str.startswith (InstanceV1.name m) "instances/") = true
                  /\ InstanceV1.name m <> ""
                  /\ ~ starts_with "instances/" (InstanceV1.name m)
                  \/ Str.truthy (InstanceV1.name m)
                     && negb (Str.startswith (InstanceV1.name m) "instances/") = false
                     /\ (InstanceV1.name m = ""
                         \/ starts_with "instances/" (InstanceV1.name m))).
  { destruct (Str.truthy (InstanceV1.name m)) eqn:Hn; cbn [negb andb].
    - apply truthy_true_iff in Hn.
      destruct (Str.startswith (InstanceV1.name m) "instances/") eqn:Hp; cbn [negb].
      + apply startswith_iff in Hp. right. split; [reflexivity | now right].
      + apply startswith_false_iff in Hp. left. tauto.
    - apply truthy_false_iff in Hn. right. tauto. }
  destruct Hname as [(-> & Hne & Hp) | [-> Hname]].
  { split; settle_iff. }
  destruct (Str.truthy (InstanceV1.definition_name m)) eqn:Hd; cbn [negb orb].
  2:{ apply truthy_false_iff in Hd. split; settle_iff. }
  apply truthy_true_iff in Hd.
  destruct (Str.startswith (InstanceV1.definition_name m) "definitions/") eqn:Hq;
    cbn [negb].
  2:{ apply startswith_false_iff in Hq. split; settle_iff. }
  apply startswith_iff in Hq.
  fold (starts_with "definitions/" (InstanceV1.definition_name m)) in Hq.
  split; settle_iff.
Qed.

End ErrorProperties.

(** ** Symmetry of the comparisons *)

Section SymmetryProperties.

(** X15. The comparisons do not depend on the side an object stands on:
    for two Services, two Instances or two Definitions, [a == b] and
    [b == a] have the same outcome. *)
Theorem equality_symmetric :
  (forall a b : service.Service,
      service.__eq__ a (instance_of b) = service.__eq__ b (instance_of a))
  /\ (forall a b : instance.Instance,
        instance.__eq__ a (instance_of b) = instance.__eq__ b (instance_of a))
  /\ (forall a b : definition.Definition_,
        definition.__eq__ a (instance_of b) = definition.__eq__ b (instance_of a)).
Proof.
  split; [|split].
  - intros a b. apply Bool.eq_iff_eq_true.
    rewrite !service_eq_leibniz. split; congruence.
  - intros a b.
    pose proof (instance_eq_fields a b) as Hab.
    pose proof (instance_eq_fields b a) as Hba.
    unfold instance.__eq__ in *. f_equal. apply Bool.eq_iff_eq_true.
    rewrite Bool_true_iff in Hab, Hba. rewrite Hab, Hba.
    split; intros (? & ? & ? & ? & ?); repeat split; congruence.
  - intros a b.
    pose proof (definition_eq_fields a b) as Hab.
    pose proof (definition_eq_fields b a) as Hba.
    unfold definition.__eq__ in *. f_equal. apply Bool.eq_iff_eq_true.
    rewrite Bool_true_iff in Hab, Hba. rewrite Hab, Hba.
    rewrite (comparable_sym
               (sequence_type_of (definition.available_service_names b))).
    split; intros (? & ? & ? & ? & ?); repeat split; congruence.
Qed.

End SymmetryProperties.

